(** * Isolation: cone sums, pile-up corrections and the isolation selection

    A shallow embedding of [modules/Isolation.cc] (Delphes): the classifier
    [IsolationClassifier::GetCategory] and the event loop [Isolation::Process].

    The module works on [Candidate] objects that live on the heap and are
    reached through arrays of pointers; [Process] reads their kinematics and
    flags, writes six isolation members back into the candidates of the
    candidate array and appends the selected ones to the output array.  The
    embedding keeps that shape: a heap of objects, arrays of pointers, the
    local variables of [Process] as a frame that the blocks of the loop body
    transform in the order of the source. *)

From Stdlib Require Import Floats ZArith NArith List Bool Lia QArith Qcanon Qcabs.
Import ListNotations.

Close Scope Qc_scope.
Close Scope Q_scope.

Set Implicit Arguments.

(** ** Arithmetic of [Double_t]

    Everything numeric in [Process] is a [Double_t] combined with [+ - * /],
    compared with [<] and [<=] (and their mirror images), or passed to
    [TMath::Abs]/[fabs].  The operations are an interface, so that the same
    text of the program can be read in IEEE binary64 (the program as it runs,
    instance [binary64] below) and in exact rational arithmetic (instance
    [exact] below, the reference of the one statement that speaks of exact
    arithmetic). *)

Class Double (D : Type) : Type := {
  d0 : D;                    (* the literal 0.0 *)
  d0_5 : D;                  (* the literal 0.5 *)
  d1_488 : D;                (* the literal 1.488 *)
  Pi : D;                    (* TMath::Pi() *)
  Dadd : D -> D -> D;
  Dsub : D -> D -> D;
  Dmul : D -> D -> D;
  Ddiv : D -> D -> D;
  Dabs : D -> D;             (* TMath::Abs and fabs *)
  Dle : D -> D -> bool;      (* a <= b *)
  Dlt : D -> D -> bool       (* a < b *)
}.

Declare Scope double_scope.
Delimit Scope double_scope with dbl.
Infix "+" := Dadd : double_scope.
Infix "-" := Dsub : double_scope.
Infix "*" := Dmul : double_scope.
Infix "/" := Ddiv : double_scope.
Notation "a <=? b" := (Dle a b) (at level 70) : double_scope.
Notation "a <? b" := (Dlt a b) (at level 70) : double_scope.
Notation "a >=? b" := (Dle b a) (at level 70) : double_scope.
Notation "a >? b" := (Dlt b a) (at level 70) : double_scope.

(** The part of ROOT's [TLorentzVector] that [Process] calls. *)
Class LorentzVector (D V : Type) : Type := {
  Pt : V -> D;
  Eta : V -> D;
  DeltaR : V -> V -> D
}.

Section IsolationModule.

Context {D V : Type} {arith : Double D} {kin : LorentzVector D V}.

Local Open Scope double_scope.

(** [TMath::Max(Double_t a, Double_t b)] of ROOT: [a >= b ? a : b]. *)
Definition Max (a b : D) : D := if a >=? b then a else b.

(** ** Objects

    The members of [Candidate] that [Process] touches.  [Edges] is an array
    member, read at the indices 0 and 1. *)
Record Candidate : Type := mkCandidate {
  Momentum : V;
  Charge : Z;
  IsRecoPU : bool;
  UniqueID : N;
  Edges : nat -> D;
  IsolationVar : D;
  IsolationVarRhoCorr : D;
  SumPtCharged : D;
  SumPtNeutral : D;
  SumPtChargedPU : D;
  SumPt : D
}.

(** Pointers, and the heap they point into. *)
Definition Ptr : Type := nat.
Definition Heap : Type := Ptr -> Candidate.

Definition store (h : Heap) (p : Ptr) (c : Candidate) : Heap :=
  fun q => if Nat.eqb q p then c else h q.

(** The members of the [Isolation] module set by [Init], and the arrays it
    imports.  [fRhoInputArray] is the null pointer ([None]) when no
    [RhoInputArray] is configured. *)
Record Isolation : Type := mkIsolation {
  fDeltaRMax : D;
  Iso_p0 : D;
  Iso_p1 : D;
  Iso_p0_ee : D;
  Iso_p1_ee : D;
  fPTRatioMax : D;
  fPTSumMax : D;
  fUsePTSum : bool;
  fUseLooseID : bool;
  fUseRhoCorrection : bool;
  fPTMin : D;
  fCandidateInputArray : list Ptr;
  fRhoInputArray : option (list Ptr)
}.

(** [IsolationClassifier::GetCategory], lines 71-79. *)
Definition GetCategory (fPTMin : D) (track : Candidate) : Z :=
  if Pt (Momentum track) <? fPTMin then (-1)%Z else 0%Z.

(** ** The frame of [Process]

    The local variables declared at lines 171-175 and 257. *)
Record Locals : Type := mkLocals {
  eta : D;
  rho : D;
  sumChargedNoPU : D;
  sumChargedPU : D;
  sumNeutral : D;
  sumAllParticles : D;
  counter : Z;
  IsoCut : D;
  sumDBeta : D;
  sumRhoCorr : D;
  ratioDBeta : D;
  ratioRhoCorr : D;
  sum : D;
  ratio : D
}.

(** Assignment to one local variable. *)
Definition set_eta (v : D) (l : Locals) : Locals :=
  mkLocals v (rho l) (sumChargedNoPU l) (sumChargedPU l) (sumNeutral l)
    (sumAllParticles l) (counter l) (IsoCut l) (sumDBeta l) (sumRhoCorr l)
    (ratioDBeta l) (ratioRhoCorr l) (sum l) (ratio l).

Definition set_rho (v : D) (l : Locals) : Locals :=
  mkLocals (eta l) v (sumChargedNoPU l) (sumChargedPU l) (sumNeutral l)
    (sumAllParticles l) (counter l) (IsoCut l) (sumDBeta l) (sumRhoCorr l)
    (ratioDBeta l) (ratioRhoCorr l) (sum l) (ratio l).

Definition set_sumChargedNoPU (v : D) (l : Locals) : Locals :=
  mkLocals (eta l) (rho l) v (sumChargedPU l) (sumNeutral l)
    (sumAllParticles l) (counter l) (IsoCut l) (sumDBeta l) (sumRhoCorr l)
    (ratioDBeta l) (ratioRhoCorr l) (sum l) (ratio l).

Definition set_sumChargedPU (v : D) (l : Locals) : Locals :=
  mkLocals (eta l) (rho l) (sumChargedNoPU l) v (sumNeutral l)
    (sumAllParticles l) (counter l) (IsoCut l) (sumDBeta l) (sumRhoCorr l)
    (ratioDBeta l) (ratioRhoCorr l) (sum l) (ratio l).

Definition set_sumNeutral (v : D) (l : Locals) : Locals :=
  mkLocals (eta l) (rho l) (sumChargedNoPU l) (sumChargedPU l) v
    (sumAllParticles l) (counter l) (IsoCut l) (sumDBeta l) (sumRhoCorr l)
    (ratioDBeta l) (ratioRhoCorr l) (sum l) (ratio l).

Definition set_sumAllParticles (v : D) (l : Locals) : Locals :=
  mkLocals (eta l) (rho l) (sumChargedNoPU l) (sumChargedPU l) (sumNeutral l)
    v (counter l) (IsoCut l) (sumDBeta l) (sumRhoCorr l) (ratioDBeta l)
    (ratioRhoCorr l) (sum l) (ratio l).

Definition set_counter (v : Z) (l : Locals) : Locals :=
  mkLocals (eta l) (rho l) (sumChargedNoPU l) (sumChargedPU l) (sumNeutral l)
    (sumAllParticles l) v (IsoCut l) (sumDBeta l) (sumRhoCorr l)
    (ratioDBeta l) (ratioRhoCorr l) (sum l) (ratio l).

Definition set_IsoCut (v : D) (l : Locals) : Locals :=
  mkLocals (eta l) (rho l) (sumChargedNoPU l) (sumChargedPU l) (sumNeutral l)
    (sumAllParticles l) (counter l) v (sumDBeta l) (sumRhoCorr l)
    (ratioDBeta l) (ratioRhoCorr l) (sum l) (ratio l).

Definition set_sumDBeta (v : D) (l : Locals) : Locals :=
  mkLocals (eta l) (rho l) (sumChargedNoPU l) (sumChargedPU l) (sumNeutral l)
    (sumAllParticles l) (counter l) (IsoCut l) v (sumRhoCorr l) (ratioDBeta l)
    (ratioRhoCorr l) (sum l) (ratio l).

Definition set_sumRhoCorr (v : D) (l : Locals) : Locals :=
  mkLocals (eta l) (rho l) (sumChargedNoPU l) (sumChargedPU l) (sumNeutral l)
    (sumAllParticles l) (counter l) (IsoCut l) (sumDBeta l) v (ratioDBeta l)
    (ratioRhoCorr l) (sum l) (ratio l).

Definition set_ratioDBeta (v : D) (l : Locals) : Locals :=
  mkLocals (eta l) (rho l) (sumChargedNoPU l) (sumChargedPU l) (sumNeutral l)
    (sumAllParticles l) (counter l) (IsoCut l) (sumDBeta l) (sumRhoCorr l) v
    (ratioRhoCorr l) (sum l) (ratio l).

Definition set_ratioRhoCorr (v : D) (l : Locals) : Locals :=
  mkLocals (eta l) (rho l) (sumChargedNoPU l) (sumChargedPU l) (sumNeutral l)
    (sumAllParticles l) (counter l) (IsoCut l) (sumDBeta l) (sumRhoCorr l)
    (ratioDBeta l) v (sum l) (ratio l).

Definition set_sum (v : D) (l : Locals) : Locals :=
  mkLocals (eta l) (rho l) (sumChargedNoPU l) (sumChargedPU l) (sumNeutral l)
    (sumAllParticles l) (counter l) (IsoCut l) (sumDBeta l) (sumRhoCorr l)
    (ratioDBeta l) (ratioRhoCorr l) v (ratio l).

Definition set_ratio (v : D) (l : Locals) : Locals :=
  mkLocals (eta l) (rho l) (sumChargedNoPU l) (sumChargedPU l) (sumNeutral l)
    (sumAllParticles l) (counter l) (IsoCut l) (sumDBeta l) (sumRhoCorr l)
    (ratioDBeta l) (ratioRhoCorr l) (sum l) v.

(** What [Process] leaves behind: the heap, the output array, and its own
    frame (dead once it returns). *)
Record State : Type := mkState {
  objects : Heap;
  fOutputArray : list Ptr;
  locals : Locals
}.

(** The conversion an assignment performs towards the declared type of the
    member it writes.  The declaration of [Candidate] is in
    [classes/DelphesClasses.h]; the conversion is the identity for a
    [Double_t] member and rounds for a narrower one. *)
Variable to_member : D -> D.

Variable self : Isolation.

(** ** The blocks of the loop body, in the order of the source *)

(** Line 190. *)
Definition read_eta (h : Heap) (candidate : Ptr) (l : Locals) : Locals :=
  set_eta (Dabs (Eta (Momentum (h candidate)))) l.

(** Lines 199-202 (and 250-253): the body of the scan over the rho array. *)
Definition find_rho_step (h : Heap) (l : Locals) (object : Ptr) : Locals :=
  if (eta l >=? Edges (h object) 0) && (eta l <? Edges (h object) 1)
  then set_rho (Pt (Momentum (h object))) l
  else l.

(** Lines 192-204, and again lines 243-255. *)
Definition find_rho (h : Heap) (l : Locals) : Locals :=
  let l := set_rho d0 l in
  match fRhoInputArray self with
  | Some rhoArray => fold_left (find_rho_step h) rhoArray l
  | None => l
  end.

(** Lines 208-213. *)
Definition reset_sums (l : Locals) : Locals :=
  let l := set_sumNeutral d0 l in
  let l := set_sumChargedNoPU d0 l in
  let l := set_sumChargedPU d0 l in
  let l := set_sumAllParticles d0 l in
  set_counter 0%Z l.

(** Lines 218-240: the body of the loop over the isolation objects. *)
Definition cone_step (h : Heap) (candidate : Ptr) (l : Locals)
    (isolation : Ptr) : Locals :=
  let candidateMomentum := Momentum (h candidate) in
  let isolationMomentum := Momentum (h isolation) in
  if (DeltaR candidateMomentum isolationMomentum <=? fDeltaRMax self)
     && negb (UniqueID (h candidate) =? UniqueID (h isolation))%N
  then
    let l := set_sumAllParticles (sumAllParticles l + Pt isolationMomentum) l in
    let l :=
      if negb (Charge (h isolation) =? 0)%Z
      then
        if IsRecoPU (h isolation)
        then set_sumChargedPU (sumChargedPU l + Pt isolationMomentum) l
        else set_sumChargedNoPU (sumChargedNoPU l + Pt isolationMomentum) l
      else set_sumNeutral (sumNeutral l + Pt isolationMomentum) l in
    set_counter (counter l + 1)%Z l
  else l.

(** Lines 257-265. *)
Definition iso_cut (h : Heap) (candidate : Ptr) (l : Locals) : Locals :=
  let candidateMomentum := Momentum (h candidate) in
  if Dabs (Eta candidateMomentum) <? d1_488
  then set_IsoCut (Iso_p0 self + Iso_p1 self * Pt candidateMomentum) l
  else set_IsoCut (Iso_p0_ee self + Iso_p1_ee self * Pt candidateMomentum) l.

(** Lines 267-272: correct the sum for pile-up contamination. *)
Definition correct (h : Heap) (candidate : Ptr) (l : Locals) : Locals :=
  let candidateMomentum := Momentum (h candidate) in
  let l :=
    set_sumDBeta
      (sumChargedNoPU l + Max (sumNeutral l - d0_5 * sumChargedPU l) d0) l in
  let l :=
    set_sumRhoCorr
      (sumChargedNoPU l
       + Max (sumNeutral l
              - Max (rho l) d0 * fDeltaRMax self * fDeltaRMax self * Pi) d0)
      l in
  let l := set_ratioDBeta (sumDBeta l / Pt candidateMomentum) l in
  set_ratioRhoCorr (sumRhoCorr l / Pt candidateMomentum) l.

(** Lines 189-272: everything the body computes before it writes. *)
Definition compute (h : Heap) (isolationArray : list Ptr) (candidate : Ptr)
    (l : Locals) : Locals :=
  let l := read_eta h candidate l in
  let l := find_rho h l in
  let l := reset_sums l in
  let l := fold_left (cone_step h candidate) isolationArray l in
  let l := find_rho h l in
  let l := iso_cut h candidate l in
  correct h candidate l.

(** Lines 274-279: the six members written into the candidate. *)
Definition write_isolation (l : Locals) (c : Candidate) : Candidate :=
  {| Momentum := Momentum c;
     Charge := Charge c;
     IsRecoPU := IsRecoPU c;
     UniqueID := UniqueID c;
     Edges := Edges c;
     IsolationVar := to_member (ratioDBeta l);
     IsolationVarRhoCorr := to_member (ratioRhoCorr l);
     SumPtCharged := to_member (sumChargedNoPU l);
     SumPtNeutral := to_member (sumNeutral l);
     SumPtChargedPU := to_member (sumChargedPU l);
     SumPt := to_member (sumAllParticles l) |}.

(** Lines 284-286. *)
Definition choose (l : Locals) : Locals :=
  let l :=
    set_sum (if fUseRhoCorrection self then sumRhoCorr l else sumDBeta l) l in
  set_ratio (if fUseRhoCorrection self then ratioRhoCorr l else ratioDBeta l) l.

(** Lines 288-302: [true] when one of the three branches runs [continue]. *)
Definition rejected (l : Locals) : bool :=
  if fUsePTSum self && negb (fUseLooseID self) && (sum l >? fPTSumMax self)
  then true
  else if fUseLooseID self && negb (fUsePTSum self) && (sum l >? IsoCut l)
  then true
  else if negb (fUsePTSum self) && (ratio l >? fPTRatioMax self)
  then true
  else false.

(** Lines 274-304: write, select, and add to the output array. *)
Definition finish (st : State) (candidate : Ptr) (l : Locals) : State :=
  let h := objects st in
  let h := store h candidate (write_isolation l (h candidate)) in
  let l := choose l in
  if rejected l
  then mkState h (fOutputArray st) l
  else mkState h (fOutputArray st ++ [candidate]) l.

(** Lines 187-305: one turn of the loop over the candidates. *)
Definition iteration (isolationArray : list Ptr) (st : State)
    (candidate : Ptr) : State :=
  finish st candidate
    (compute (objects st) isolationArray candidate (locals st)).

(** [Isolation::Process], lines 167-306.  [isolationArray] is what
    [fFilter->GetSubArray(fClassifier, 0)] returned at line 179: the array of
    the isolation objects that [GetCategory] puts into category 0, or the
    null pointer ([None]); [ExRootFilter] decides which, and is not part of
    this file.  [junk] is the content of the frame on entry: lines 174-175
    initialise [eta] and [rho], the other locals start indeterminate. *)
Definition Process (isolationArray : option (list Ptr)) (junk : Locals)
    (h : Heap) (out : list Ptr) : State :=
  let l := set_rho d0 (set_eta d0 junk) in
  match isolationArray with
  | None => mkState h out l
  | Some isolationArray =>
      fold_left (iteration isolationArray) (fCandidateInputArray self)
        (mkState h out l)
  end.

(** ** The variant with one rho lookup

    [Process] with the second scan of the rho array (lines 243-255) left
    out: rho is looked up once per candidate, before the cone loop. *)
Definition compute_single_lookup (h : Heap) (isolationArray : list Ptr)
    (candidate : Ptr) (l : Locals) : Locals :=
  let l := read_eta h candidate l in
  let l := find_rho h l in
  let l := reset_sums l in
  let l := fold_left (cone_step h candidate) isolationArray l in
  let l := iso_cut h candidate l in
  correct h candidate l.

Definition iteration_single_lookup (isolationArray : list Ptr) (st : State)
    (candidate : Ptr) : State :=
  finish st candidate
    (compute_single_lookup (objects st) isolationArray candidate (locals st)).

Definition Process_single_lookup (isolationArray : option (list Ptr))
    (junk : Locals) (h : Heap) (out : list Ptr) : State :=
  let l := set_rho d0 (set_eta d0 junk) in
  match isolationArray with
  | None => mkState h out l
  | Some isolationArray =>
      fold_left (iteration_single_lookup isolationArray)
        (fCandidateInputArray self) (mkState h out l)
  end.

(** ** Vocabulary of the statements *)

(** The bin of the rho array that [object] stands for contains [x]. *)
Definition in_bin (h : Heap) (x : D) (object : Ptr) : bool :=
  (x >=? Edges (h object) 0) && (x <? Edges (h object) 1).

(** The last element of an array, in iteration order, that passes [f]. *)
Definition last_match (f : Ptr -> bool) (array : list Ptr) : option Ptr :=
  find f (rev array).

(** [isolation] is inside the cone of [candidate] and is another object. *)
Definition in_cone (h : Heap) (candidate isolation : Ptr) : bool :=
  (DeltaR (Momentum (h candidate)) (Momentum (h isolation)) <=? fDeltaRMax self)
  && negb (UniqueID (h candidate) =? UniqueID (h isolation))%N.

(** The three buckets an isolation object can fall into. *)
Inductive Category : Type := Neutral | ChargedPU | ChargedNoPU.

Definition category (c : Candidate) : Category :=
  if (Charge c =? 0)%Z then Neutral
  else if IsRecoPU c then ChargedPU else ChargedNoPU.

Definition Category_eqb (a b : Category) : bool :=
  match a, b with
  | Neutral, Neutral | ChargedPU, ChargedPU | ChargedNoPU, ChargedNoPU => true
  | _, _ => false
  end.

Definition in_category (h : Heap) (k : Category) (p : Ptr) : bool :=
  Category_eqb (category (h p)) k.

(** The transverse momenta of the objects of [ps], added one after the other
    onto [s], first to last. *)
Definition add_pts (h : Heap) (ps : list Ptr) (s : D) : D :=
  fold_left (fun s p => s + Pt (Momentum (h p))) ps s.

(** The scan of the rho array as a function of the running value of rho. *)
Definition rho_scan (h : Heap) (x : D) (rhoArray : list Ptr) (r : D) : D :=
  fold_left (fun r o => if in_bin h x o then Pt (Momentum (h o)) else r)
    rhoArray r.

(** The value of rho the lookup ends with. *)
Definition rho_of (h : Heap) (x : D) : D :=
  match fRhoInputArray self with
  | Some rhoArray => rho_scan h x rhoArray d0
  | None => d0
  end.

(** Two heaps hold the same input members in every object. *)
Definition same_inputs (h h' : Heap) : Prop :=
  forall p,
    Momentum (h' p) = Momentum (h p) /\ Charge (h' p) = Charge (h p)
    /\ IsRecoPU (h' p) = IsRecoPU (h p) /\ UniqueID (h' p) = UniqueID (h p)
    /\ Edges (h' p) = Edges (h p).

End IsolationModule.

Arguments Candidate : clear implicits.
Arguments Heap : clear implicits.
Arguments Isolation : clear implicits.
Arguments Locals : clear implicits.
Arguments State : clear implicits.

(** ** The two readings of [Double_t] *)

(** IEEE 754 binary64, the arithmetic of the compiled program.  The two
    inexact literals are given by the binary64 value the compiler picks:
    1.488 is 0x1.7ced916872b02p+0 and pi is 0x1.921fb54442d18p+1. *)
#[export] Instance binary64 : Double float := {|
  d0 := 0%float;
  d0_5 := 0.5%float;
  d1_488 := 0x1.7ced916872b02p+0%float;
  Pi := 0x1.921fb54442d18p+1%float;
  Dadd := PrimFloat.add;
  Dsub := PrimFloat.sub;
  Dmul := PrimFloat.mul;
  Ddiv := PrimFloat.div;
  Dabs := PrimFloat.abs;
  Dle := PrimFloat.leb;
  Dlt := PrimFloat.ltb |}.

(** Exact rational arithmetic: no rounding, no NaN and no infinity (a
    division by zero gives 0), the literals at their decimal value
    ([TMath::Pi()] is written 3.14159265358979323846 in ROOT).  The program
    does not run in this arithmetic; it serves only to show that the
    algebraic laws under which the three buckets add up to
    [sumAllParticles] can hold at all. *)
#[export] Instance exact : Double Qc := {|
  d0 := Q2Qc 0;
  d0_5 := Q2Qc (1 # 2);
  d1_488 := Q2Qc (1488 # 1000);
  Pi := Q2Qc (314159265358979323846 # 100000000000000000000);
  Dadd := Qcplus;
  Dsub := Qcminus;
  Dmul := Qcmult;
  Ddiv := Qcdiv;
  Dabs := Qcabs;
  Dle := fun a b => Qle_bool a b;
  Dlt := fun a b => negb (Qle_bool b a) |}.

(** ** Vectors for the examples

    A momentum given by its transverse momentum, pseudorapidity and azimuth.
    [DeltaR] is [sqrt(deta*deta + dphi*dphi)] as in [TLorentzVector::DeltaR];
    the examples keep the azimuths less than pi apart, where
    [TVector2::Phi_mpi_pi] leaves [dphi] as it is. *)
Record PtEtaPhi : Type := mkPtEtaPhi {
  vPt : float;
  vEta : float;
  vPhi : float
}.

#[export] Instance PtEtaPhi_vector : LorentzVector float PtEtaPhi := {|
  Pt := vPt;
  Eta := vEta;
  DeltaR := fun v w =>
    let deta := (vEta v - vEta w)%float in
    let dphi := (vPhi v - vPhi w)%float in
    PrimFloat.sqrt (deta * deta + dphi * dphi)%float |}.



(** ** Data for the examples *)

(** The configuration [Init] sets up (lines 103-127) when only the central
    cut [Iso_p0], the cuts [PTRatioMax] and [PTSumMax] and the two mode
    switches are given, for a candidate array and a rho array.  2.3 is
    given by its binary64 value. *)
Definition config (p0 ptRatioMax ptSumMax : float)
    (usePTSum useLooseID : bool) (candidates : list Ptr)
    (rhoArray : option (list Ptr)) : Isolation float :=
  {| fDeltaRMax := 0.5%float;
     Iso_p0 := p0;
     Iso_p1 := 0%float;
     Iso_p0_ee := 0x1.2666666666666p+1%float;
     Iso_p1_ee := 0%float;
     fPTRatioMax := ptRatioMax;
     fPTSumMax := ptSumMax;
     fUsePTSum := usePTSum;
     fUseLooseID := useLooseID;
     fUseRhoCorrection := true;
     fPTMin := 0.5%float;
     fCandidateInputArray := candidates;
     fRhoInputArray := rhoArray |}.

(** All defaults: [Iso_p0 = 2.6], [PTRatioMax = 0.1], [PTSumMax = 5], both
    switches clear (2.6 and 0.1 by their binary64 values). *)
Definition default_config (candidates : list Ptr)
    (rhoArray : option (list Ptr)) : Isolation float :=
  config 0x1.4cccccccccccdp+1%float 0x1.999999999999ap-4%float 5%float
    false false candidates rhoArray.

(** [UseLooseID] set and the parametrised cut lowered to 0.25. *)
Definition loose_config (candidates : list Ptr) : Isolation float :=
  config 0.25%float 0x1.999999999999ap-4%float 5%float false true candidates
    None.

(** [PTRatioMax] lowered to 0.03125. *)
Definition tight_config (candidates : list Ptr) : Isolation float :=
  config 0x1.4cccccccccccdp+1%float 0.03125%float 5%float false false
    candidates None.

(** [UseLooseID] set, the parametrised cut at its default 2.6 and
    [PTRatioMax] lowered to 0.03125. *)
Definition loose_tight_config (candidates : list Ptr) : Isolation float :=
  config 0x1.4cccccccccccdp+1%float 0.03125%float 5%float false true
    candidates None.

(** Both [UsePTSum] and [UseLooseID] set, and the three cuts lowered to
    0.25, 0.03125 and 0.5. *)
Definition both_config (candidates : list Ptr) : Isolation float :=
  config 0.25%float 0.03125%float 0.5%float true true candidates None.

(** An object of transverse momentum [pt] at pseudorapidity [eta] and
    azimuth 0, its isolation members at 0. *)
Definition particle (pt eta : float) (charge : Z) (pileup : bool) (id : N) :
    Candidate float PtEtaPhi :=
  {| Momentum := mkPtEtaPhi pt eta 0%float;
     Charge := charge;
     IsRecoPU := pileup;
     UniqueID := id;
     Edges := fun _ => 0%float;
     IsolationVar := 0%float;
     IsolationVarRhoCorr := 0%float;
     SumPtCharged := 0%float;
     SumPtNeutral := 0%float;
     SumPtChargedPU := 0%float;
     SumPt := 0%float |}.

(** An object of the rho array: the bin from [low] to [high] with density
    [density] (carried as its transverse momentum). *)
Definition rho_bin (low high density : float) (id : N) :
    Candidate float PtEtaPhi :=
  {| Momentum := mkPtEtaPhi density 0%float 0%float;
     Charge := 0%Z;
     IsRecoPU := false;
     UniqueID := id;
     Edges := fun i =>
       match i with O => low | S O => high | _ => 0%float end;
     IsolationVar := 0%float;
     IsolationVarRhoCorr := 0%float;
     SumPtCharged := 0%float;
     SumPtNeutral := 0%float;
     SumPtChargedPU := 0%float;
     SumPt := 0%float |}.

(** A frame full of leftovers. *)
Definition stale : Locals float :=
  mkLocals 7%float 7%float 7%float 7%float 7%float 7%float 7%Z 7%float
    7%float 7%float 7%float 7%float 7%float 7%float.

(** A candidate of [pt = 16] at [eta = 0]; a charged object of [pt = 0.5]
    at [DeltaR = 0.125] and a neutral object of [pt = 0.5] at
    [DeltaR = 0.25], neither from pile-up; a neutral object of [pt = 1]
    outside the cone, at [DeltaR = 1]. *)
Definition event_heap : Heap float PtEtaPhi :=
  fun p =>
    match p with
    | 0%nat => particle 16%float 0%float (-1) false 1
    | 1%nat => particle 0.5%float 0.125%float 1 false 2
    | 2%nat => particle 0.5%float 0.25%float 0 false 3
    | _ => particle 1%float 1%float 0 false 4
    end.

(** A candidate of [pt = 0] at [eta = 0] and a neutral object of [pt = 1] at
    [DeltaR = 0.125]. *)
Definition zero_pt_heap : Heap float PtEtaPhi :=
  fun p =>
    match p with
    | 0%nat => particle 0%float 0%float (-1) false 1
    | _ => particle 1%float 0.125%float 0 false 2
    end.

(** A candidate of [pt = 0] at [eta = 0] and a neutral object of [pt = 1]
    outside its cone, at [DeltaR = 1]. *)
Definition zero_pt_far_heap : Heap float PtEtaPhi :=
  fun p =>
    match p with
    | 0%nat => particle 0%float 0%float (-1) false 1
    | _ => particle 1%float 1%float 0 false 2
    end.

(** A candidate of [pt = 16] at [eta = 0] and a neutral object of
    [pt = 0.25], below [PTMin = 0.5], at [DeltaR = 0.125]. *)
Definition soft_heap : Heap float PtEtaPhi :=
  fun p =>
    match p with
    | 0%nat => particle 16%float 0%float (-1) false 1
    | _ => particle 0.25%float 0.125%float 0 false 2
    end.

(** A candidate of [pt = 16] at [eta = 0]; a neutral object of [pt = 1] at
    [DeltaR = 0.5] exactly, and one of [pt = 2] at the next binary64 value
    above 0.5. *)
Definition boundary_heap : Heap float PtEtaPhi :=
  fun p =>
    match p with
    | 0%nat => particle 16%float 0%float (-1) false 1
    | 1%nat => particle 1%float 0.5%float 0 false 2
    | _ => particle 2%float 0x1.0000000000001p-1%float 0 false 3
    end.

(** A candidate of [pt = 16] at [eta = 0] with a charged object of
    [pt = 2^53] and two neutral objects of [pt = 1] in its cone. *)
Definition rounding_heap : Heap float PtEtaPhi :=
  fun p =>
    match p with
    | 0%nat => particle 16%float 0%float (-1) false 1
    | 1%nat => particle 0x1p+53%float 0.125%float 1 false 2
    | 2%nat => particle 1%float 0.125%float 0 false 3
    | _ => particle 1%float 0.25%float 0 false 4
    end.

(** A candidate of [pt = 10] at [eta = 0.5], and three bins of a rho array:
    [0, 2) with density 3, [0, 1) with density 5, [1, 2) with density 7. *)
Definition rho_heap : Heap float PtEtaPhi :=
  fun p =>
    match p with
    | 0%nat => particle 10%float 0.5%float (-1) false 1
    | 1%nat => rho_bin 0%float 2%float 3%float 2
    | 2%nat => rho_bin 0%float 1%float 5%float 3
    | _ => rho_bin 1%float 2%float 7%float 4
    end.





(** * Construction, [Init] and [Finish]

    The life of the module object around the passes: the constructor, [Init],
    [Finish] and the destructor (lines 83-163).  What these do besides
    filling in the members is to allocate and delete the helper objects the
    members point to, so the embedding carries the dynamic memory along.
    The configuration source ([GetDouble], [GetBool], [GetString]), the
    array registry ([ImportArray], [ExportArray]) and the conversion of the
    decimal literals of the defaults are the framework's and the compiler's:
    parameters here. *)

From Stdlib Require String Ascii Uint63.
Import String.StringSyntax.
Delimit Scope string_scope with string.

Module Lifecycle.

Definition Address : Type := nat.

(** Dynamic memory: [next] is the first address never handed out, [live]
    are the addresses allocated and not deleted since. *)
Record Memory : Type := mkMemory {
  next : Address;
  live : list Address
}.

(** [new T], and ROOT's [MakeIterator()], which returns a [new] iterator
    that the caller owns. *)
Definition new (mem : Memory) : Address * Memory :=
  (next mem, mkMemory (S (next mem)) (next mem :: live mem)).

(** [delete p] for a non-null [p]: [None] when [p] is not a live object
    (deleted before, or never allocated), where C++ leaves the behaviour
    undefined. *)
Definition delete (p : Address) (mem : Memory) : option Memory :=
  if existsb (Nat.eqb p) (live mem)
  then Some (mkMemory (next mem) (remove Nat.eq_dec p (live mem)))
  else None.

(** [if(p) delete p;] *)
Definition delete_if_set (p : option Address) (mem : Memory) : option Memory :=
  match p with
  | Some a => delete a mem
  | None => Some mem
  end.

Notation "'do' x <- a ; b" :=
  (match a with Some x => b | None => None end)
    (at level 10, x name, a at level 100, b at level 200).

(** The first character of a C string is not the terminating NUL. *)
Definition not_empty (name : String.string) : bool :=
  match name with
  | String.String c _ => negb (Ascii.eqb c Ascii.zero)
  | String.EmptyString => false
  end.

Section Lifecycle.

Context {D : Type} {arith : Double D}.

Local Open Scope string_scope.
Local Open Scope list_scope.

(** A [TObjArray *] obtained from the framework. *)
Variable ArrayRef : Type.

Variable GetDouble : String.string -> D -> D.
Variable GetBool : String.string -> bool -> bool.
Variable GetString : String.string -> String.string -> String.string.
Variable ImportArray : String.string -> ArrayRef.
Variable ExportArray : String.string -> ArrayRef.

(** The [Double_t] a decimal literal of the source stands for. *)
Variable literal : Q -> D.

(** A line written to [std::cout]: a label, a value, [std::endl]. *)
Inductive Printed : Type :=
  | PrintDouble (label : String.string) (value : D)
  | PrintBool (label : String.string) (value : bool).

(** The data members of [Isolation]; [fPTMin] is the one of the classifier
    object that [fClassifier] points to.  A null pointer is [None]. *)
Record Members : Type := mkMembers {
  fClassifier : option Address;
  fPTMin : D;
  fFilter : option Address;
  fItIsolationInputArray : option Address;
  fItCandidateInputArray : option Address;
  fItRhoInputArray : option Address;
  fDeltaRMax : D;
  Iso_p0 : D;
  Iso_p1 : D;
  Iso_p0_ee : D;
  Iso_p1_ee : D;
  fPTRatioMax : D;
  fPTSumMax : D;
  fUsePTSum : bool;
  fUseLooseID : bool;
  fUseRhoCorrection : bool;
  fIsolationInputArray : ArrayRef;
  fCandidateInputArray : ArrayRef;
  fRhoInputArray : option ArrayRef;
  fOutputArray : ArrayRef
}.

(** [Isolation::Isolation()], lines 83-89: the five pointers of the
    initialiser list are null, the classifier is allocated, and every other
    member is left as the storage [raw] of the object holds it. *)
Definition Constructor (raw : Members) (mem : Memory) : Members * Memory :=
  let '(classifier, mem) := new mem in
  (mkMembers (Some classifier) (fPTMin raw) None None None None
     (fDeltaRMax raw) (Iso_p0 raw) (Iso_p1 raw) (Iso_p0_ee raw)
     (Iso_p1_ee raw) (fPTRatioMax raw) (fPTSumMax raw) (fUsePTSum raw)
     (fUseLooseID raw) (fUseRhoCorrection raw) (fIsolationInputArray raw)
     (fCandidateInputArray raw) (fRhoInputArray raw) (fOutputArray raw),
   mem).

(** [Isolation::~Isolation()], lines 93-95: an empty body. *)
Definition Destructor (m : Members) (mem : Memory) : Memory := mem.

(** [Isolation::Init], lines 99-153. *)
Definition Init (m : Members) (mem : Memory) (out : list Printed) :
    Members * Memory * list Printed :=
  let fDeltaRMax' := GetDouble "DeltaRMax" d0_5 in
  let Iso_p0' := GetDouble "Iso_p0" (literal (26 # 10)) in
  let Iso_p1' := GetDouble "Iso_p1" d0 in
  let Iso_p0_ee' := GetDouble "Iso_p0_ee" (literal (23 # 10)) in
  let Iso_p1_ee' := GetDouble "Iso_p1_ee" d0 in
  let out := out ++ [PrintDouble "Iso_p0: " Iso_p0'] in
  let out := out ++ [PrintDouble "Iso_p1: " Iso_p1'] in
  let out := out ++ [PrintDouble "Iso_p0_ee: " Iso_p0_ee'] in
  let out := out ++ [PrintDouble "Iso_p1_ee: " Iso_p1_ee'] in
  let fPTRatioMax' := GetDouble "PTRatioMax" (literal (1 # 10)) in
  let fPTSumMax' := GetDouble "PTSumMax" (literal 5) in
  let fUsePTSum' := GetBool "UsePTSum" false in
  let out := out ++ [PrintBool "UsePTSum: " fUsePTSum'] in
  let fUseLooseID' := GetBool "UseLooseID" false in
  let out := out ++ [PrintBool "UseLooseID: " fUseLooseID'] in
  let fUseRhoCorrection' := GetBool "UseRhoCorrection" true in
  let fPTMin' := GetDouble "PTMin" d0_5 in
  (* import input array(s) *)
  let fIsolationInputArray' :=
    ImportArray (GetString "IsolationInputArray" "Delphes/partons") in
  let '(fItIsolationInputArray', mem) := new mem in
  let '(fFilter', mem) := new mem in
  let fCandidateInputArray' :=
    ImportArray (GetString "CandidateInputArray" "Calorimeter/electrons") in
  let '(fItCandidateInputArray', mem) := new mem in
  let rhoInputArrayName := GetString "RhoInputArray" String.EmptyString in
  let '(fRhoInputArray', fItRhoInputArray', mem) :=
    if not_empty rhoInputArrayName
    then
      let '(it, mem) := new mem in
      (Some (ImportArray rhoInputArrayName), Some it, mem)
    else (None, fItRhoInputArray m, mem) in
  (* create output array *)
  let fOutputArray' := ExportArray (GetString "OutputArray" "electrons") in
  (mkMembers (fClassifier m) fPTMin' (Some fFilter')
     (Some fItIsolationInputArray') (Some fItCandidateInputArray')
     fItRhoInputArray' fDeltaRMax' Iso_p0' Iso_p1' Iso_p0_ee' Iso_p1_ee'
     fPTRatioMax' fPTSumMax' fUsePTSum' fUseLooseID' fUseRhoCorrection'
     fIsolationInputArray' fCandidateInputArray' fRhoInputArray'
     fOutputArray',
   mem, out).

(** [Isolation::Finish], lines 157-163.  The pointers are deleted, not
    reset. *)
Definition Finish (m : Members) (mem : Memory) : option Memory :=
  do mem <- delete_if_set (fItRhoInputArray m) mem;
  do mem <- delete_if_set (fFilter m) mem;
  do mem <- delete_if_set (fItCandidateInputArray m) mem;
  delete_if_set (fItIsolationInputArray m) mem.

(** Every live address has been handed out. *)
Definition well_formed (mem : Memory) : Prop :=
  forall a, In a (live mem) -> a < next mem.

End Lifecycle.

End Lifecycle.

(** ** The module with another rho array *)

Definition with_rho_array {D : Type} (rhoArray : option (list Ptr))
    (self : Isolation D) : Isolation D :=
  {| fDeltaRMax := fDeltaRMax self;
     Iso_p0 := Iso_p0 self;
     Iso_p1 := Iso_p1 self;
     Iso_p0_ee := Iso_p0_ee self;
     Iso_p1_ee := Iso_p1_ee self;
     fPTRatioMax := fPTRatioMax self;
     fPTSumMax := fPTSumMax self;
     fUsePTSum := fUsePTSum self;
     fUseLooseID := fUseLooseID self;
     fUseRhoCorrection := fUseRhoCorrection self;
     fPTMin := fPTMin self;
     fCandidateInputArray := fCandidateInputArray self;
     fRhoInputArray := rhoArray |}.

(** ** More data for the examples *)

(** The default configuration with [UseRhoCorrection] off. *)
Definition delta_beta_config (candidates : list Ptr)
    (rhoArray : option (list Ptr)) : Isolation float :=
  {| fDeltaRMax := 0.5%float;
     Iso_p0 := 0x1.4cccccccccccdp+1%float;
     Iso_p1 := 0%float;
     Iso_p0_ee := 0x1.2666666666666p+1%float;
     Iso_p1_ee := 0%float;
     fPTRatioMax := 0x1.999999999999ap-4%float;
     fPTSumMax := 5%float;
     fUsePTSum := false;
     fUseLooseID := false;
     fUseRhoCorrection := false;
     fPTMin := 0.5%float;
     fCandidateInputArray := candidates;
     fRhoInputArray := rhoArray |}.

(** [event_heap] after something has written 7 into the six isolation
    members of the candidate. *)
Definition event_heap_written : Heap float PtEtaPhi :=
  store event_heap 0%nat (write_isolation (fun x => x) stale (event_heap 0%nat)).

(** A candidate of [pt = 16] at [eta = 0]; a neutral object of [pt = 1]
    whose pseudorapidity is NaN, and a neutral object of [pt = 2] at
    [DeltaR = 0.25]. *)
Definition nan_distance_heap : Heap float PtEtaPhi :=
  fun p =>
    match p with
    | 0%nat => particle 16%float 0%float (-1) false 1
    | 1%nat => particle 1%float PrimFloat.nan 0 false 2
    | _ => particle 2%float 0.25%float 0 false 3
    end.

(** A candidate of [pt = 16] at [eta = 0] with three objects in its cone:
    a charged one of [pt = 0.5] not from pile-up, a neutral one of
    [pt = 1], a charged pile-up one of [pt = 4]; and two bins [0, 2.5) of a
    rho array, one with density 8, one whose density is NaN. *)
Definition pileup_heap : Heap float PtEtaPhi :=
  fun p =>
    match p with
    | 0%nat => particle 16%float 0%float (-1) false 1
    | 1%nat => particle 0.5%float 0.125%float 1 false 2
    | 2%nat => particle 1%float 0.25%float 0 false 3
    | 3%nat => particle 4%float 0.125%float 1 true 4
    | 4%nat => rho_bin 0%float 2.5%float 8%float 5
    | _ => rho_bin 0%float 2.5%float PrimFloat.nan 6
    end.


(** A candidate of [pt = 16] at [eta = 0] with five objects in its cone:
    a charged one of [pt = 1] not from pile-up, and two neutral and two
    charged pile-up ones whose [pt] is the largest finite binary64 value. *)
Definition saturated_heap : Heap float PtEtaPhi :=
  fun p =>
    match p with
    | 0%nat => particle 16%float 0%float (-1) false 1
    | 1%nat => particle 1%float 0.125%float 1 false 2
    | 2%nat => particle 0x1.fffffffffffffp+1023%float 0.125%float 0 false 3
    | 3%nat => particle 0x1.fffffffffffffp+1023%float 0.25%float 0 false 4
    | 4%nat => particle 0x1.fffffffffffffp+1023%float 0.125%float 1 true 5
    | _ => particle 0x1.fffffffffffffp+1023%float 0.25%float 1 true 6
    end.

(** A candidate of [pt = 16] at [eta = 0] with a neutral object of
    [pt = 4] in its cone, and the bin [0, 2.5) of a rho array with
    density 8. *)
Definition rho_event_heap : Heap float PtEtaPhi :=
  fun p =>
    match p with
    | 0%nat => particle 16%float 0%float (-1) false 1
    | 1%nat => particle 4%float 0.125%float 0 false 2
    | _ => rho_bin 0%float 2.5%float 8%float 3
    end.

(** A candidate at [eta = 0] whose [Pt()] is NaN, and a neutral object of
    [pt = 1] outside its cone, at [DeltaR = 1]. *)
Definition nan_pt_heap : Heap float PtEtaPhi :=
  fun p =>
    match p with
    | 0%nat => particle PrimFloat.nan 0%float (-1) false 1
    | _ => particle 1%float 1%float 0 false 2
    end.

(** The absolute mode: [UsePTSum] set, [UseLooseID] clear, the other
    parameters at their defaults. *)
Definition sum_config (candidates : list Ptr) : Isolation float :=
  config 0x1.4cccccccccccdp+1%float 0x1.999999999999ap-4%float 5%float true
    false candidates None.

(** The binary64 value of a non-negative decimal literal with a numerator
    and a denominator below 2^53: the quotient of the two, rounded once. *)
Definition literal_binary64 (q : Q) : float :=
  (PrimFloat.of_uint63 (Uint63.of_Z (Qnum q))
   / PrimFloat.of_uint63 (Uint63.of_Z (Zpos (Qden q))))%float.

(** A configuration source without any entry: every parameter has its
    default. *)
Definition unset (T : Type) (name : String.string) (default : T) : T :=
  default.

(** A configuration source whose only entry names the rho array. *)
Definition rho_named (name default : String.string) : String.string :=
  if String.eqb name "RhoInputArray"%string then "Rho/rho"%string
  else default.

(** The array registry, an array standing for its name. *)
Definition array_named (name : String.string) : String.string := name.

(** The storage of a module object before its construction. *)
Definition raw_members : Lifecycle.Members String.string :=
  Lifecycle.mkMembers (Some 9%nat) 7%float (Some 9%nat) (Some 9%nat)
    (Some 9%nat) (Some 9%nat) 7%float 7%float 7%float 7%float 7%float
    7%float 7%float true true false "?"%string "?"%string
    (Some "?"%string) "?"%string.

(** A memory in which the objects at the addresses 1 and 3 are live. *)
Definition busy_memory : Lifecycle.Memory :=
  Lifecycle.mkMemory 5 [1; 3]%nat.

(** * Properties *)

Section Properties.

Context {D V : Type} {arith : Double D} {kin : LorentzVector D V}.

Variable to_member : D -> D.
Variable self : Isolation D.

Local Open Scope double_scope.

(** ** The rho lookup *)

Lemma find_rho_scan (h : Heap D V) (rhoArray : list Ptr) (l : Locals D) :
  fold_left (find_rho_step h) rhoArray l
  = set_rho (rho_scan h (eta l) rhoArray (rho l)) l.
Proof.
  revert l; induction rhoArray as [|o os IH]; intros l.
  - destruct l; reflexivity.
  - cbn [fold_left rho_scan]. rewrite IH. unfold rho_scan, find_rho_step, in_bin.
    destruct ((eta l >=? Edges (h o) 0) && (eta l <? Edges (h o) 1));
      reflexivity.
Qed.

Lemma find_rho_eq (h : Heap D V) (l : Locals D) :
  find_rho self h l = set_rho (rho_of self h (eta l)) l.
Proof.
  unfold find_rho, rho_of.
  destruct (fRhoInputArray self) as [rhoArray|]; [|reflexivity].
  rewrite find_rho_scan. reflexivity.
Qed.

Lemma last_match_snoc (f : Ptr -> bool) (ps : list Ptr) (p : Ptr) :
  last_match f (ps ++ [p]) = if f p then Some p else last_match f ps.
Proof.
  unfold last_match. rewrite rev_app_distr. reflexivity.
Qed.

Lemma rho_scan_last (h : Heap D V) (x : D) (rhoArray : list Ptr) (r : D) :
  rho_scan h x rhoArray r
  = match last_match (in_bin h x) rhoArray with
    | Some o => Pt (Momentum (h o))
    | None => r
    end.
Proof.
  induction rhoArray as [|o os IH] using rev_ind.
  - reflexivity.
  - unfold rho_scan in *. rewrite fold_left_app, last_match_snoc. cbn [fold_left].
    destruct (in_bin h x o); [reflexivity | exact IH].
Qed.

(** ** The cone loop *)

Lemma cone_loop (h : Heap D V) (candidate : Ptr) (isolationArray : list Ptr)
    (l : Locals D) :
  fold_left (cone_step self h candidate) isolationArray l
  = let inc := filter (in_cone self h candidate) isolationArray in
    mkLocals (eta l) (rho l)
      (add_pts h (filter (in_category h ChargedNoPU) inc) (sumChargedNoPU l))
      (add_pts h (filter (in_category h ChargedPU) inc) (sumChargedPU l))
      (add_pts h (filter (in_category h Neutral) inc) (sumNeutral l))
      (add_pts h inc (sumAllParticles l))
      (counter l + Z.of_nat (length inc))%Z
      (IsoCut l) (sumDBeta l) (sumRhoCorr l) (ratioDBeta l) (ratioRhoCorr l)
      (sum l) (ratio l).
Proof.
  revert l; induction isolationArray as [|o os IH]; intros l.
  - destruct l; cbn. rewrite Z.add_0_r. reflexivity.
  - cbn [fold_left filter]. rewrite IH. clear IH.
    unfold cone_step. fold (in_cone self h candidate o).
    destruct (in_cone self h candidate o); [|reflexivity].
    cbn [filter length]. unfold in_category, category.
    destruct (Charge (h o) =? 0)%Z; [|destruct (IsRecoPU (h o))];
      cbn; f_equal; lia.
Qed.

(** ** The frame at the end of the computation *)

Lemma compute_closed_form (h : Heap D V) (isolationArray : list Ptr)
    (candidate : Ptr) (l : Locals D) :
  compute self h isolationArray candidate l
  = let pt := Pt (Momentum (h candidate)) in
    let x := Dabs (Eta (Momentum (h candidate))) in
    let inc := filter (in_cone self h candidate) isolationArray in
    let nopu := add_pts h (filter (in_category h ChargedNoPU) inc) d0 in
    let pu := add_pts h (filter (in_category h ChargedPU) inc) d0 in
    let neutral := add_pts h (filter (in_category h Neutral) inc) d0 in
    let r := rho_of self h x in
    let dbeta := nopu + Max (neutral - d0_5 * pu) d0 in
    let rhocorr :=
      nopu + Max (neutral - Max r d0 * fDeltaRMax self * fDeltaRMax self * Pi)
               d0 in
    mkLocals x r nopu pu neutral (add_pts h inc d0)
      (0 + Z.of_nat (length inc))%Z
      (if x <? d1_488
       then Iso_p0 self + Iso_p1 self * pt
       else Iso_p0_ee self + Iso_p1_ee self * pt)
      dbeta rhocorr (dbeta / pt) (rhocorr / pt) (sum l) (ratio l).
Proof.
  unfold compute. rewrite find_rho_eq, cone_loop, find_rho_eq.
  unfold iso_cut, correct, read_eta. cbn.
  destruct (Dabs (Eta (Momentum (h candidate))) <? d1_488); reflexivity.
Qed.

Lemma compute_single_lookup_eq (h : Heap D V) (isolationArray : list Ptr)
    (candidate : Ptr) (l : Locals D) :
  compute_single_lookup self h isolationArray candidate l
  = compute self h isolationArray candidate l.
Proof.
  rewrite compute_closed_form.
  unfold compute_single_lookup. rewrite find_rho_eq, cone_loop.
  unfold iso_cut, correct, read_eta. cbn.
  destruct (Dabs (Eta (Momentum (h candidate))) <? d1_488); reflexivity.
Qed.

(** The frame the selection reads does not depend on what the frame held
    when the turn of the loop began. *)
Lemma choose_compute_fresh (h : Heap D V) (isolationArray : list Ptr)
    (candidate : Ptr) (l l' : Locals D) :
  choose self (compute self h isolationArray candidate l)
  = choose self (compute self h isolationArray candidate l').
Proof.
  rewrite !compute_closed_form. reflexivity.
Qed.

Lemma write_compute_fresh (h : Heap D V) (isolationArray : list Ptr)
    (candidate : Ptr) (l l' : Locals D) (c : Candidate D V) :
  write_isolation to_member (compute self h isolationArray candidate l) c
  = write_isolation to_member (compute self h isolationArray candidate l') c.
Proof.
  rewrite !compute_closed_form. reflexivity.
Qed.

(** ** Heaps that differ in the written members only *)

Lemma same_inputs_refl (h : Heap D V) : same_inputs h h.
Proof. intros p. repeat split. Qed.

Lemma same_inputs_store (h h' : Heap D V) (p : Ptr) (l : Locals D) :
  same_inputs h h' ->
  same_inputs h (store h' p (write_isolation to_member l (h' p))).
Proof.
  intros Hs q. unfold store.
  destruct (Nat.eqb q p) eqn:E; [|apply Hs].
  apply Nat.eqb_eq in E; subst q. cbn. apply Hs.
Qed.

Lemma in_bin_same_inputs (h h' : Heap D V) (x : D) (o : Ptr) :
  same_inputs h h' -> in_bin h' x o = in_bin h x o.
Proof.
  intros Hs. unfold in_bin.
  destruct (Hs o) as (_ & _ & _ & _ & ->). reflexivity.
Qed.

Lemma rho_scan_same_inputs (h h' : Heap D V) (x : D) (rhoArray : list Ptr)
    (r : D) :
  same_inputs h h' -> rho_scan h' x rhoArray r = rho_scan h x rhoArray r.
Proof.
  intros Hs. revert r; induction rhoArray as [|o os IH]; intros r.
  - reflexivity.
  - unfold rho_scan in *. cbn [fold_left].
    rewrite (in_bin_same_inputs x o Hs).
    destruct (Hs o) as (-> & _). apply IH.
Qed.

Lemma rho_of_same_inputs (h h' : Heap D V) (x : D) :
  same_inputs h h' -> rho_of self h' x = rho_of self h x.
Proof.
  intros Hs. unfold rho_of.
  destruct (fRhoInputArray self); [apply rho_scan_same_inputs, Hs | reflexivity].
Qed.

Lemma in_cone_same_inputs (h h' : Heap D V) (candidate o : Ptr) :
  same_inputs h h' -> in_cone self h' candidate o = in_cone self h candidate o.
Proof.
  intros Hs. unfold in_cone.
  destruct (Hs o) as (-> & _ & _ & -> & _).
  destruct (Hs candidate) as (-> & _ & _ & -> & _). reflexivity.
Qed.

Lemma in_category_same_inputs (h h' : Heap D V) (k : Category) (o : Ptr) :
  same_inputs h h' -> in_category h' k o = in_category h k o.
Proof.
  intros Hs. unfold in_category, category.
  destruct (Hs o) as (_ & -> & -> & _). reflexivity.
Qed.

Lemma add_pts_same_inputs (h h' : Heap D V) (ps : list Ptr) (s : D) :
  same_inputs h h' -> add_pts h' ps s = add_pts h ps s.
Proof.
  intros Hs. revert s; induction ps as [|p ps IH]; intros s.
  - reflexivity.
  - unfold add_pts in *. cbn [fold_left].
    destruct (Hs p) as (-> & _). apply IH.
Qed.

Lemma filter_same (f g : Ptr -> bool) (ps : list Ptr) :
  (forall p, f p = g p) -> filter f ps = filter g ps.
Proof.
  intros E. induction ps as [|p ps IH]; cbn; [reflexivity|].
  rewrite E, IH. reflexivity.
Qed.

Lemma compute_same_inputs (h h' : Heap D V) (isolationArray : list Ptr)
    (candidate : Ptr) (l : Locals D) :
  same_inputs h h' ->
  compute self h' isolationArray candidate l
  = compute self h isolationArray candidate l.
Proof.
  intros Hs. rewrite !compute_closed_form. cbv zeta.
  rewrite (filter_same _ _ isolationArray
             (fun o => in_cone_same_inputs candidate o Hs)).
  set (inc := filter (in_cone self h candidate) isolationArray).
  rewrite !(filter_same _ _ inc (fun o => in_category_same_inputs _ o Hs)).
  rewrite !(add_pts_same_inputs _ _ Hs), (rho_of_same_inputs _ Hs).
  destruct (Hs candidate) as (-> & _). reflexivity.
Qed.

(** ** One turn of the candidate loop, and the loop *)

Lemma finish_objects (st : State D V) (candidate : Ptr) (l : Locals D)
    (p : Ptr) :
  objects (finish to_member self st candidate l) p
  = if Nat.eqb p candidate
    then write_isolation to_member l (objects st candidate)
    else objects st p.
Proof.
  unfold finish. destruct (rejected self (choose self l)); reflexivity.
Qed.

Lemma finish_output (st : State D V) (candidate : Ptr) (l : Locals D) :
  fOutputArray (finish to_member self st candidate l)
  = if rejected self (choose self l)
    then fOutputArray st
    else fOutputArray st ++ [candidate].
Proof.
  unfold finish. destruct (rejected self (choose self l)); reflexivity.
Qed.

Lemma write_isolation_twice (l l' : Locals D) (c : Candidate D V) :
  write_isolation to_member l (write_isolation to_member l' c)
  = write_isolation to_member l c.
Proof. reflexivity. Qed.

Lemma iteration_same_inputs (h : Heap D V) (isolationArray : list Ptr)
    (st : State D V) (candidate : Ptr) :
  same_inputs h (objects st) ->
  same_inputs h (objects (iteration to_member self isolationArray st candidate)).
Proof.
  intros Hs q. unfold iteration. rewrite finish_objects.
  destruct (Nat.eqb q candidate) eqn:E; [|apply Hs].
  apply Nat.eqb_eq in E; subst q. cbn. apply Hs.
Qed.

Lemma candidate_loop (h : Heap D V) (isolationArray : list Ptr)
    (l0 : Locals D) (candidates : list Ptr) (st : State D V) :
  same_inputs h (objects st) ->
  let st' := fold_left (iteration to_member self isolationArray) candidates st in
  same_inputs h (objects st')
  /\ fOutputArray st'
     = fOutputArray st
       ++ filter
            (fun c =>
               negb (rejected self
                       (choose self (compute self h isolationArray c l0))))
            candidates
  /\ (forall p, In p candidates ->
        objects st' p
        = write_isolation to_member (compute self h isolationArray p l0)
            (objects st p))
  /\ (forall p, ~ In p candidates -> objects st' p = objects st p).
Proof.
  revert st; induction candidates as [|c cs IH]; intros st Hs.
  - cbn. rewrite app_nil_r.
    split; [exact Hs|]. split; [reflexivity|]. split; [contradiction|].
    reflexivity.
  - cbn [fold_left].
    pose proof (iteration_same_inputs isolationArray st c Hs) as Hs1.
    destruct (IH _ Hs1) as (Hin & Hout & Hw & Hf). clear IH.
    set (st1 := iteration to_member self isolationArray st c) in *.
    assert (Hl : compute self (objects st) isolationArray c (locals st)
                 = compute self h isolationArray c (locals st))
      by (apply compute_same_inputs, Hs).
    assert (Hout1 : fOutputArray st1
                    = fOutputArray st
                      ++ filter
                           (fun c =>
                              negb (rejected self
                                      (choose self
                                         (compute self h isolationArray c l0))))
                           [c]).
    { unfold st1, iteration. rewrite finish_output, Hl.
      rewrite (choose_compute_fresh h isolationArray c (locals st) l0).
      cbn [filter].
      destruct (rejected self
                  (choose self (compute self h isolationArray c l0)));
        cbn; [rewrite app_nil_r|]; reflexivity. }
    assert (Hobj1 : forall p,
               objects st1 p
               = if Nat.eqb p c
                 then write_isolation to_member
                        (compute self h isolationArray c l0) (objects st c)
                 else objects st p).
    { intros p. unfold st1, iteration. rewrite finish_objects, Hl.
      rewrite (write_compute_fresh h isolationArray c (locals st) l0).
      reflexivity. }
    split; [exact Hin|]. split; [|split].
    + rewrite Hout, Hout1, <- app_assoc, <- filter_app. reflexivity.
    + intros p [->|Hp].
      * destruct (in_dec Nat.eq_dec p cs) as [Hp|Hp].
        -- rewrite (Hw p Hp), Hobj1, Nat.eqb_refl. apply write_isolation_twice.
        -- rewrite (Hf p Hp), Hobj1, Nat.eqb_refl. reflexivity.
      * rewrite (Hw p Hp), Hobj1.
        destruct (Nat.eqb p c) eqn:E; [|reflexivity].
        apply Nat.eqb_eq in E; subst p. apply write_isolation_twice.
    + intros p Hp. rewrite (Hf p); [|intros Hc; apply Hp; right; exact Hc].
      rewrite Hobj1. destruct (Nat.eqb p c) eqn:E; [|reflexivity].
      apply Nat.eqb_eq in E; subst p. exfalso; apply Hp; left; reflexivity.
Qed.

Lemma pileup_ratios (h : Heap D V) (isolationArray : list Ptr)
    (candidate : Ptr) (l : Locals D) :
  let l' := compute self h isolationArray candidate l in
  ratioDBeta l' = sumDBeta l' / Pt (Momentum (h candidate))
  /\ ratioRhoCorr l' = sumRhoCorr l' / Pt (Momentum (h candidate)).
Proof.
  cbv zeta. rewrite compute_closed_form. cbn. split; reflexivity.
Qed.

Lemma compute_IsoCut (h : Heap D V) (isolationArray : list Ptr)
    (candidate : Ptr) (l : Locals D) :
  IsoCut (compute self h isolationArray candidate l)
  = if Dabs (Eta (Momentum (h candidate))) <? d1_488
    then Iso_p0 self + Iso_p1 self * Pt (Momentum (h candidate))
    else Iso_p0_ee self + Iso_p1_ee self * Pt (Momentum (h candidate)).
Proof. rewrite compute_closed_form. reflexivity. Qed.

Lemma iteration_output (isolationArray : list Ptr) (st : State D V)
    (candidate : Ptr) :
  fOutputArray (iteration to_member self isolationArray st candidate)
  = if rejected self
         (choose self
            (compute self (objects st) isolationArray candidate (locals st)))
    then fOutputArray st
    else fOutputArray st ++ [candidate].
Proof. unfold iteration. apply finish_output. Qed.

(** ** The selection (lines 257-304) *)

Lemma rejected_choose (l : Locals D) :
  let the_sum := if fUseRhoCorrection self then sumRhoCorr l else sumDBeta l in
  let the_ratio :=
    if fUseRhoCorrection self then ratioRhoCorr l else ratioDBeta l in
  rejected self (choose self l)
  = (fUsePTSum self && negb (fUseLooseID self) && (the_sum >? fPTSumMax self))
    || (fUseLooseID self && negb (fUsePTSum self) && (the_sum >? IsoCut l))
    || (negb (fUsePTSum self) && (the_ratio >? fPTRatioMax self)).
Proof.
  cbv zeta. unfold rejected, choose. cbn.
  destruct (fUsePTSum self), (fUseLooseID self); cbn.
  - reflexivity.
  - destruct (Dlt (fPTSumMax self) _); reflexivity.
  - destruct (Dlt _ _); [reflexivity|]. destruct (Dlt _ _); reflexivity.
  - destruct (Dlt _ _); reflexivity.
Qed.

(** C1.  A candidate is rejected (not added to the output array) if and only
    if [usePtSum && !useLooseId && sum > ptSumMax], or
    [useLooseId && !usePtSum && sum > isoCut], or
    [!usePtSum && ratio > ptRatioMax], where [sum] and [ratio] are the
    rho-corrected or the delta-beta values according to [useRhoCorrection]
    and [isoCut] is the barrel or the endcap parametrisation according to
    [|eta| < 1.488].  With both [usePtSum] and [useLooseId] set nothing
    rejects; with [useLooseId] set and [usePtSum] clear the candidate is
    rejected as soon as one of the two tests [sum > isoCut] and
    [ratio > ptRatioMax] holds. *)
Theorem selection_policy (isolationArray : list Ptr) (st : State D V)
    (candidate : Ptr) :
  let l := compute self (objects st) isolationArray candidate (locals st) in
  let momentum := Momentum (objects st candidate) in
  let the_sum := if fUseRhoCorrection self then sumRhoCorr l else sumDBeta l in
  let the_ratio :=
    if fUseRhoCorrection self then ratioRhoCorr l else ratioDBeta l in
  let isoCut :=
    if Dabs (Eta momentum) <? d1_488
    then Iso_p0 self + Iso_p1 self * Pt momentum
    else Iso_p0_ee self + Iso_p1_ee self * Pt momentum in
  let reject :=
    (fUsePTSum self && negb (fUseLooseID self) && (the_sum >? fPTSumMax self))
    || (fUseLooseID self && negb (fUsePTSum self) && (the_sum >? isoCut))
    || (negb (fUsePTSum self) && (the_ratio >? fPTRatioMax self)) in
  let st' := iteration to_member self isolationArray st candidate in
  fOutputArray st'
  = (if reject then fOutputArray st else fOutputArray st ++ [candidate])
  /\ (fUsePTSum self = true -> fUseLooseID self = true -> reject = false)
  /\ (fUseLooseID self = true -> fUsePTSum self = false ->
      reject = (the_sum >? isoCut) || (the_ratio >? fPTRatioMax self)).
Proof.
  cbv zeta. rewrite iteration_output, rejected_choose, compute_IsoCut.
  cbv zeta. split; [reflexivity|].
  split; intros -> ->; reflexivity.
Qed.

(** ** The pile-up correction (lines 267-272) *)

(** C2.  At the end of the computation the frame holds
    [sumDBeta = sumChargedNoPU + max(sumNeutral - 0.5*sumChargedPU, 0)] and
    [sumRhoCorr = sumChargedNoPU + max(sumNeutral
    - max(rho, 0)*deltaRMax*deltaRMax*pi, 0)] (the product taken left to
    right, as the source writes it), and the two ratios are these sums
    divided by the candidate's [Pt()].  Here [max(a, b)] is what
    [TMath::Max] computes, [a] when [a >= b] and [b] otherwise: the
    difference when it is [>= 0.0], and [0.0] when it is below or when the
    comparison fails. *)
Theorem pileup_correction (h : Heap D V) (isolationArray : list Ptr)
    (candidate : Ptr) (l : Locals D) :
  let l' := compute self h isolationArray candidate l in
  let pt := Pt (Momentum (h candidate)) in
  let max (a b : D) := if a >=? b then a else b in
  sumDBeta l'
  = sumChargedNoPU l' + max (sumNeutral l' - d0_5 * sumChargedPU l') d0
  /\ sumRhoCorr l'
     = sumChargedNoPU l'
       + max (sumNeutral l'
              - max (rho l') d0 * fDeltaRMax self * fDeltaRMax self * Pi) d0
  /\ ratioDBeta l' = sumDBeta l' / pt
  /\ ratioRhoCorr l' = sumRhoCorr l' / pt.
Proof.
  cbv zeta. rewrite compute_closed_form. unfold Max. cbn.
  split; [reflexivity|]. split; [reflexivity|]. split; reflexivity.
Qed.

(** ** The cone sums (lines 206-241) *)

Lemma in_cone_iff (h : Heap D V) (candidate o : Ptr) :
  in_cone self h candidate o = true
  <-> (DeltaR (Momentum (h candidate)) (Momentum (h o)) <=? fDeltaRMax self)
      = true
      /\ UniqueID (h o) <> UniqueID (h candidate).
Proof.
  unfold in_cone. rewrite andb_true_iff, negb_true_iff, N.eqb_neq.
  split; intros [Hd Hu]; (split; [exact Hd|]); intros E; apply Hu;
    symmetry; exact E.
Qed.

Lemma in_category_iff (h : Heap D V) (o : Ptr) :
  (in_category h Neutral o = true <-> Charge (h o) = 0%Z)
  /\ (in_category h ChargedPU o = true
      <-> Charge (h o) <> 0%Z /\ IsRecoPU (h o) = true)
  /\ (in_category h ChargedNoPU o = true
      <-> Charge (h o) <> 0%Z /\ IsRecoPU (h o) = false).
Proof.
  unfold in_category, category.
  destruct (Z.eqb_spec (Charge (h o)) 0) as [E|E];
    destruct (IsRecoPU (h o)); cbn; intuition congruence.
Qed.

(** C3.  An isolation object of the pre-filtered array contributes to the
    cone sums if and only if its [DeltaR] to the candidate is [<= deltaRMax]
    (boundary included) and its unique ID differs from the candidate's.  The
    [Pt()] of every such object is added to [sumAllParticles] and to exactly
    one bucket: [sumNeutral] when its charge is 0, otherwise [sumChargedPU]
    when it is flagged pile-up and [sumChargedNoPU] when it is not.  Each sum
    is therefore the [Pt()] of the contributing objects of its bucket, added
    in array order starting from 0. *)
Theorem cone_accumulation (h : Heap D V) (isolationArray : list Ptr)
    (candidate : Ptr) (l : Locals D) :
  let l' := compute self h isolationArray candidate l in
  let contributing := filter (in_cone self h candidate) isolationArray in
  (forall o,
      In o contributing
      <-> In o isolationArray
          /\ (DeltaR (Momentum (h candidate)) (Momentum (h o))
              <=? fDeltaRMax self) = true
          /\ UniqueID (h o) <> UniqueID (h candidate))
  /\ (forall o,
        (in_category h Neutral o = true <-> Charge (h o) = 0%Z)
        /\ (in_category h ChargedPU o = true
            <-> Charge (h o) <> 0%Z /\ IsRecoPU (h o) = true)
        /\ (in_category h ChargedNoPU o = true
            <-> Charge (h o) <> 0%Z /\ IsRecoPU (h o) = false))
  /\ sumAllParticles l' = add_pts h contributing d0
  /\ sumNeutral l' = add_pts h (filter (in_category h Neutral) contributing) d0
  /\ sumChargedPU l'
     = add_pts h (filter (in_category h ChargedPU) contributing) d0
  /\ sumChargedNoPU l'
     = add_pts h (filter (in_category h ChargedNoPU) contributing) d0
  /\ counter l' = Z.of_nat (length contributing).
Proof.
  cbv zeta. rewrite compute_closed_form. cbn.
  split.
  { intros o. rewrite filter_In, in_cone_iff. reflexivity. }
  split; [intros o; apply in_category_iff|].
  repeat (split; [reflexivity|]). reflexivity.
Qed.

(** ** The members written into the candidates (lines 274-279) *)

Lemma Process_objects (isolationArray : list Ptr) (junk l : Locals D)
    (h : Heap D V) (out : list Ptr) (p : Ptr) :
  let st' := Process to_member self (Some isolationArray) junk h out in
  (In p (fCandidateInputArray self) ->
   objects st' p
   = write_isolation to_member (compute self h isolationArray p l) (h p))
  /\ (~ In p (fCandidateInputArray self) -> objects st' p = h p).
Proof.
  cbv zeta. unfold Process.
  destruct (@candidate_loop h isolationArray l (fCandidateInputArray self)
              (mkState h out (set_rho d0 (set_eta d0 junk)))
              (same_inputs_refl h)) as (_ & _ & Hw & Hf).
  split; intros Hp; [apply (Hw p Hp) | apply (Hf p Hp)].
Qed.

(** C4.  When the candidate loop runs, every candidate of the candidate
    array ends the pass with [IsolationVar = ratioDBeta],
    [IsolationVarRhoCorr = ratioRhoCorr], [SumPtCharged = sumChargedNoPU],
    [SumPtNeutral = sumNeutral], [SumPtChargedPU = sumChargedPU] and
    [SumPt = sumAllParticles] (each value converted to the member's type by
    the assignment), whatever the selection decides about it, and with its
    other members as they were. *)
Theorem isolation_members_written (isolationArray : list Ptr)
    (junk l : Locals D) (h : Heap D V) (out : list Ptr) (p : Ptr) :
  In p (fCandidateInputArray self) ->
  let st' := Process to_member self (Some isolationArray) junk h out in
  let lp := compute self h isolationArray p l in
  IsolationVar (objects st' p) = to_member (ratioDBeta lp)
  /\ IsolationVarRhoCorr (objects st' p) = to_member (ratioRhoCorr lp)
  /\ SumPtCharged (objects st' p) = to_member (sumChargedNoPU lp)
  /\ SumPtNeutral (objects st' p) = to_member (sumNeutral lp)
  /\ SumPtChargedPU (objects st' p) = to_member (sumChargedPU lp)
  /\ SumPt (objects st' p) = to_member (sumAllParticles lp)
  /\ Momentum (objects st' p) = Momentum (h p)
  /\ Charge (objects st' p) = Charge (h p)
  /\ IsRecoPU (objects st' p) = IsRecoPU (h p)
  /\ UniqueID (objects st' p) = UniqueID (h p)
  /\ Edges (objects st' p) = Edges (h p).
Proof.
  intros Hp. cbv zeta.
  destruct (Process_objects isolationArray junk l h out p) as [Hw _].
  rewrite (Hw Hp). cbn.
  repeat (split; [reflexivity|]). reflexivity.
Qed.

(** ** The rho lookup (lines 192-204 and 243-255) *)

Lemma last_match_none (f : Ptr -> bool) (ps : list Ptr) :
  (forall o, In o ps -> f o = false) -> last_match f ps = None.
Proof.
  intros Hf. induction ps as [|q qs IH] using rev_ind; [reflexivity|].
  rewrite last_match_snoc, (Hf q) by (apply in_or_app; right; left; reflexivity).
  apply IH. intros o Ho. apply Hf, in_or_app. left; exact Ho.
Qed.

Lemma last_match_last (f : Ptr -> bool) (before after : list Ptr) (o : Ptr) :
  f o = true -> (forall q, In q after -> f q = false) ->
  last_match f (before ++ o :: after) = Some o.
Proof.
  intros Ho. induction after as [|q qs IH] using rev_ind; intros Hf.
  - rewrite last_match_snoc, Ho. reflexivity.
  - change (before ++ o :: qs ++ [q]) with (before ++ (o :: qs) ++ [q]).
    rewrite app_assoc, last_match_snoc.
    rewrite (Hf q) by (apply in_or_app; right; left; reflexivity).
    apply IH. intros q' Hq'. apply Hf, in_or_app. left; exact Hq'.
Qed.

(** C5.  The value of rho the computation ends with, for a candidate of
    absolute pseudorapidity [x]: a bin matches when [x >= Edges[0]] and
    [x < Edges[1]]; rho is 0.0 when there is no rho array and when no bin
    of the array matches (an empty array included); otherwise it is the
    [Pt()] of the last matching bin in array order, whatever matched before
    it. *)
Theorem rho_lookup (h : Heap D V) (isolationArray : list Ptr)
    (candidate : Ptr) (l : Locals D) :
  let x := Dabs (Eta (Momentum (h candidate))) in
  let r := rho (compute self h isolationArray candidate l) in
  let matches o := (x >=? Edges (h o) 0) && (x <? Edges (h o) 1) in
  (fRhoInputArray self = None -> r = d0)
  /\ (forall rhoArray,
        fRhoInputArray self = Some rhoArray ->
        (forall o, In o rhoArray -> matches o = false) -> r = d0)
  /\ (forall before o after,
        fRhoInputArray self = Some (before ++ o :: after) ->
        matches o = true ->
        (forall q, In q after -> matches q = false) ->
        r = Pt (Momentum (h o))).
Proof.
  cbv zeta. rewrite compute_closed_form. cbn. unfold rho_of.
  split; [|split].
  - intros ->. reflexivity.
  - intros rhoArray -> Hnone. rewrite rho_scan_last.
    rewrite (last_match_none
               (in_bin h (Dabs (Eta (Momentum (h candidate))))) rhoArray Hnone).
    reflexivity.
  - intros before o after -> Ho Hafter. rewrite rho_scan_last.
    rewrite (last_match_last
               (in_bin h (Dabs (Eta (Momentum (h candidate))))) before after o
               Ho Hafter).
    reflexivity.
Qed.

(** ** No sub-array (line 181) *)

(** C9.  When [GetSubArray] returns the null pointer [Process] returns at
    once: every object of the heap is as it was (no isolation member is
    written) and the output array is as it was (no candidate is emitted). *)
Theorem no_subarray_returns (junk : Locals D) (h : Heap D V)
    (out : list Ptr) :
  let st' := Process to_member self None junk h out in
  (forall p, objects st' p = h p) /\ fOutputArray st' = out.
Proof.
  cbv zeta. unfold Process. cbn [objects fOutputArray].
  split; [intros p|]; reflexivity.
Qed.

(** ** The second rho lookup *)

Lemma fold_left_pointwise (A B : Type) (f g : A -> B -> A) (xs : list B)
    (a : A) :
  (forall a x, f a x = g a x) -> fold_left f xs a = fold_left g xs a.
Proof.
  intros E. revert a; induction xs as [|x xs IH]; intros a; cbn;
    [reflexivity|]. rewrite E. apply IH.
Qed.

(** C10.  Within one turn of the candidate loop the second scan of the rho
    array finds the frame as the first scan left it as far as [eta] and
    [rho] go, and leaves it unchanged; [Process] therefore returns the same
    heap and the same output array (and even the same frame) as the variant
    that looks rho up only once per candidate. *)
Theorem single_rho_lookup (isolationArray : option (list Ptr))
    (junk : Locals D) (h : Heap D V) (out : list Ptr) :
  (forall (h : Heap D V) (array : list Ptr) (candidate : Ptr) (l : Locals D),
      let first := find_rho self h (read_eta h candidate l) in
      let summed :=
        fold_left (cone_step self h candidate) array (reset_sums first) in
      rho (find_rho self h summed) = rho first
      /\ find_rho self h summed = summed)
  /\ Process_single_lookup to_member self isolationArray junk h out
     = Process to_member self isolationArray junk h out.
Proof.
  split.
  - intros h' array candidate l. cbv zeta.
    rewrite !find_rho_eq, cone_loop. cbn. split; reflexivity.
  - unfold Process_single_lookup, Process.
    destruct isolationArray as [array|]; [|reflexivity].
    apply fold_left_pointwise. intros st c.
    unfold iteration_single_lookup, iteration.
    rewrite compute_single_lookup_eq. reflexivity.
Qed.


(** ** The output array *)


Lemma Process_output (isolationArray : list Ptr) (junk l : Locals D)
    (h : Heap D V) (out : list Ptr) :
  fOutputArray (Process to_member self (Some isolationArray) junk h out)
  = out
    ++ filter
         (fun c =>
            negb (rejected self
                    (choose self (compute self h isolationArray c l))))
         (fCandidateInputArray self).
Proof.
  unfold Process.
  destruct (@candidate_loop h isolationArray l (fCandidateInputArray self)
              (mkState h out (set_rho d0 (set_eta d0 junk)))
              (same_inputs_refl h)) as (_ & Hout & _).
  exact Hout.
Qed.

(** C6, amended.  A pre-filter result that is no array at all makes the
    pass emit nothing.  A result that is an empty array does not: every
    candidate is then evaluated with its four sums equal to 0.0, and the
    pass emits, in the order of the candidate array, exactly the candidates
    that the selection does not reject on those sums. *)
Theorem empty_subarray_selects (junk l : Locals D) (h : Heap D V)
    (out : list Ptr) :
  fOutputArray (Process to_member self None junk h out) = out
  /\ fOutputArray (Process to_member self (Some []) junk h out)
     = out
       ++ filter
            (fun c => negb (rejected self (choose self (compute self h [] c l))))
            (fCandidateInputArray self)
  /\ (forall c,
        let lc := compute self h [] c l in
        sumChargedNoPU lc = d0 /\ sumChargedPU lc = d0
        /\ sumNeutral lc = d0 /\ sumAllParticles lc = d0).
Proof.
  split; [reflexivity|]. split; [apply Process_output|].
  intros c. cbv zeta. rewrite compute_closed_form. cbn.
  repeat (split; [reflexivity|]). reflexivity.
Qed.

(** ** The three buckets *)




End Properties.

(** * The program in binary64 *)

Unset Implicit Arguments.

(** ** Division by zero and comparison with NaN *)

Lemma SFcompare_refl (x : spec_float) :
  x <> S754_nan -> SFcompare x x = Some Eq.
Proof.
  destruct x as [s|s| |s m e]; intros H; cbn.
  - reflexivity.
  - destruct s; reflexivity.
  - contradiction.
  - rewrite Z.compare_refl, Pos.compare_cont_refl. destruct s; reflexivity.
Qed.

Lemma is_nan_Prim2SF (x : float) : is_nan x = true <-> Prim2SF x = S754_nan.
Proof.
  unfold is_nan. rewrite FloatAxioms.eqb_spec. unfold SFeqb. split.
  - intros H. destruct (Prim2SF x) eqn:E; try reflexivity;
      rewrite SFcompare_refl in H by discriminate; discriminate.
  - intros ->. reflexivity.
Qed.

Lemma eqb_zero_Prim2SF (z : float) :
  PrimFloat.eqb z 0%float = true -> exists s, Prim2SF z = S754_zero s.
Proof.
  rewrite FloatAxioms.eqb_spec. change (Prim2SF 0%float) with (S754_zero false).
  destruct (Prim2SF z) as [s|s| |s m e]; cbn.
  - intros _. exists s; reflexivity.
  - destruct s; discriminate.
  - discriminate.
  - destruct s; discriminate.
Qed.

Lemma is_infinity_Prim2SF (x : float) (s : bool) :
  Prim2SF x = S754_infinity s -> is_infinity x = true.
Proof.
  intros E. unfold is_infinity.
  rewrite FloatAxioms.eqb_spec, abs_spec, E. reflexivity.
Qed.

Lemma div_by_zero (x z : float) :
  PrimFloat.eqb z 0%float = true ->
  is_nan (x / z)%float || is_infinity (x / z)%float = true.
Proof.
  intros Hz. destruct (eqb_zero_Prim2SF z Hz) as [s Es].
  pose proof (div_spec x z) as Hd. rewrite Es in Hd.
  apply orb_true_iff.
  destruct (Prim2SF x) as [sx|sx| |sx mx ex] eqn:Ex; cbn in Hd.
  - left. apply is_nan_Prim2SF, Hd.
  - right. apply (is_infinity_Prim2SF (x / z)%float _ Hd).
  - left. apply is_nan_Prim2SF, Hd.
  - right. apply (is_infinity_Prim2SF (x / z)%float _ Hd).
Qed.

Lemma zero_by_zero (x z : float) :
  PrimFloat.eqb x 0%float = true -> PrimFloat.eqb z 0%float = true ->
  is_nan (x / z)%float = true.
Proof.
  intros Hx Hz. destruct (eqb_zero_Prim2SF x Hx) as [sx Ex].
  destruct (eqb_zero_Prim2SF z Hz) as [sz Ez].
  apply is_nan_Prim2SF. rewrite div_spec, Ex, Ez. reflexivity.
Qed.

Lemma nan_not_above (r m : float) :
  is_nan r = true -> PrimFloat.ltb m r = false.
Proof.
  intros H. apply is_nan_Prim2SF in H. rewrite ltb_spec, H. unfold SFltb.
  destruct (Prim2SF m); reflexivity.
Qed.

(** ** A candidate of zero transverse momentum *)

Section ZeroPt.

Context {V : Type} {kin : LorentzVector float V}.

Variable to_member : float -> float.
Variable self : Isolation float.

Local Open Scope double_scope.

(** C7, amended.  For a candidate with [Pt() == 0] both ratios are an
    infinity or NaN.  When the selected sum is zero the selected ratio is
    NaN; and when the selected ratio is NaN the test [ratio > ptRatioMax] is
    false, so that the candidate is added to the output unless
    [usePtSum && !useLooseId && sum > ptSumMax] or
    [useLooseId && !usePtSum && sum > isoCut] rejects it. *)
Theorem zero_pt_candidate (isolationArray : list Ptr) (st : State float V)
    (candidate : Ptr) :
  PrimFloat.eqb (Pt (Momentum (objects st candidate))) 0%float = true ->
  let l := compute self (objects st) isolationArray candidate (locals st) in
  let momentum := Momentum (objects st candidate) in
  let the_sum := if fUseRhoCorrection self then sumRhoCorr l else sumDBeta l in
  let the_ratio :=
    if fUseRhoCorrection self then ratioRhoCorr l else ratioDBeta l in
  let isoCut :=
    if Dabs (Eta momentum) <? d1_488
    then Iso_p0 self + Iso_p1 self * Pt momentum
    else Iso_p0_ee self + Iso_p1_ee self * Pt momentum in
  let clause1 :=
    fUsePTSum self && negb (fUseLooseID self) && (the_sum >? fPTSumMax self) in
  let clause2 :=
    fUseLooseID self && negb (fUsePTSum self) && (the_sum >? isoCut) in
  let st' := iteration to_member self isolationArray st candidate in
  is_nan (ratioDBeta l) || is_infinity (ratioDBeta l) = true
  /\ is_nan (ratioRhoCorr l) || is_infinity (ratioRhoCorr l) = true
  /\ (PrimFloat.eqb the_sum 0%float = true -> is_nan the_ratio = true)
  /\ (is_nan the_ratio = true ->
      fOutputArray st'
      = if clause1 || clause2
        then fOutputArray st
        else fOutputArray st ++ [candidate]).
Proof.
  intros Hpt. cbv zeta.
  rewrite iteration_output, rejected_choose, compute_IsoCut. cbv zeta.
  destruct (pileup_ratios self (objects st) isolationArray candidate
              (locals st)) as (Hd & Hr).
  set (l := compute self (objects st) isolationArray candidate (locals st))
    in *.
  split; [|split; [|split]].
  - rewrite Hd. apply div_by_zero, Hpt.
  - rewrite Hr. apply div_by_zero, Hpt.
  - intros Hs. destruct (fUseRhoCorrection self).
    + rewrite Hr. apply zero_by_zero; [exact Hs | exact Hpt].
    + rewrite Hd. apply zero_by_zero; [exact Hs | exact Hpt].
  - intros Hnan.
    assert (Hlt : Dlt (fPTRatioMax self)
                    (if fUseRhoCorrection self
                     then ratioRhoCorr l else ratioDBeta l) = false)
      by (apply nan_not_above, Hnan).
    rewrite Hlt, andb_false_r, orb_false_r. reflexivity.
Qed.

End ZeroPt.

(** * The theorems on concrete events *)

(** The objects handed to the cone loop in the events below pass the
    pre-filter of the default configuration, [PTMin = 0.5]. *)
Example event_objects_prefiltered :
  map (fun p => GetCategory 0.5%float (event_heap p)) [1; 2; 3]%nat
  = [0; 0; 0]%Z
  /\ GetCategory 0.5%float (zero_pt_heap 1%nat) = 0%Z.
Proof. split; vm_compute; reflexivity. Qed.

(** With [UseLooseID] set and [UsePTSum] clear, the candidate of
    [event_heap] has [sum = 1 > isoCut = 0.25] and
    [ratio = 0.0625 <= ptRatioMax]: the parametrised cut alone rejects it. *)
Lemma selection_policy_witness :
  fUseLooseID (loose_config [0%nat]) = true
  /\ fUsePTSum (loose_config [0%nat]) = false
  /\ fOutputArray
       (iteration (fun x => x) (loose_config [0%nat]) [1; 2; 3]%nat
          (mkState event_heap [] stale) 0%nat)
     = [].
Proof.
  split; [reflexivity|]. split; [reflexivity|].
  destruct (@selection_policy float PtEtaPhi binary64 PtEtaPhi_vector
              (fun x => x) (loose_config [0%nat]) [1; 2; 3]%nat
              (mkState event_heap [] stale) 0%nat) as (Hout & _ & Hloose).
  rewrite Hout, (Hloose eq_refl eq_refl). vm_compute. reflexivity.
Defined.

(** With [UseLooseID] set and [UsePTSum] clear the third branch is still
    reached: [sum = 1 <= isoCut = 2.6], and [ratio = 0.0625 > 0.03125]
    rejects the candidate. *)
Example loose_rejected_by_ratio :
  let l :=
    choose (loose_tight_config [0%nat])
      (compute (loose_tight_config [0%nat]) event_heap [1; 2; 3]%nat 0%nat
         stale) in
  PrimFloat.ltb (IsoCut l) (sum l) = false
  /\ PrimFloat.ltb (fPTRatioMax (loose_tight_config [0%nat])) (ratio l) = true
  /\ fOutputArray
       (Process (fun x => x) (loose_tight_config [0%nat])
          (Some [1; 2; 3]%nat) stale event_heap [])
     = [].
Proof. cbv zeta. repeat split; vm_compute; reflexivity. Qed.

(** With both [UsePTSum] and [UseLooseID] set the candidate is added to the
    output although [sum = 1] is above [ptSumMax = 0.5] and above
    [isoCut = 0.25] and [ratio = 0.0625] is above [ptRatioMax = 0.03125]. *)
Example both_switches_accept :
  let l :=
    choose (both_config [0%nat])
      (compute (both_config [0%nat]) event_heap [1; 2; 3]%nat 0%nat stale) in
  PrimFloat.ltb (fPTSumMax (both_config [0%nat])) (sum l) = true
  /\ PrimFloat.ltb (IsoCut l) (sum l) = true
  /\ PrimFloat.ltb (fPTRatioMax (both_config [0%nat])) (ratio l) = true
  /\ fOutputArray
       (Process (fun x => x) (both_config [0%nat]) (Some [1; 2; 3]%nat)
          stale event_heap [])
     = [0%nat].
Proof. cbv zeta. repeat split; vm_compute; reflexivity. Qed.

(** With [PTRatioMax = 0.03125] the candidate of [event_heap] is rejected
    ([ratio = 0.0625]); its isolation members are written all the same. *)
Lemma isolation_members_written_witness :
  let st' :=
    Process (fun x => x) (tight_config [0%nat]) (Some [1; 2; 3]%nat) stale
      event_heap [] in
  In 0%nat (fCandidateInputArray (tight_config [0%nat]))
  /\ fOutputArray st' = []
  /\ IsolationVar (objects st' 0%nat) = 0.0625%float
  /\ SumPt (objects st' 0%nat) = 1%float.
Proof.
  cbv zeta. split; [left; reflexivity|]. split; [vm_compute; reflexivity|].
  destruct (@isolation_members_written float PtEtaPhi binary64
              PtEtaPhi_vector (fun x => x) (tight_config [0%nat])
              [1; 2; 3]%nat stale stale event_heap [] 0%nat
              (or_introl eq_refl)) as (H1 & _ & _ & _ & _ & H6 & _).
  split; (etransitivity; [eassumption|]); vm_compute; reflexivity.
Defined.

(** The candidate of [rho_heap] has [|eta| = 0.5]: the bins [0, 2) and
    [0, 1) match, the bin [1, 2) does not, and rho is the density 5 of the
    later of the two matching bins. *)
Lemma rho_lookup_witness :
  rho (compute (default_config [0%nat] (Some [1; 2; 3]%nat)) rho_heap []
         0%nat stale)
  = 5%float.
Proof.
  destruct (@rho_lookup float PtEtaPhi binary64 PtEtaPhi_vector
              (default_config [0%nat] (Some [1; 2; 3]%nat)) rho_heap []
              0%nat stale) as (_ & _ & Hlast).
  rewrite (Hlast [1%nat] 2%nat [3%nat] eq_refl).
  - reflexivity.
  - vm_compute. reflexivity.
  - intros q [<-|[]]. vm_compute. reflexivity.
Defined.

(** On [pileup_heap] both floors at 0 are reached:
    [sumNeutral - 0.5*sumChargedPU = 1 - 2] is negative and [sumDBeta] is
    the charged sum 0.5 alone; with the bin of density 8,
    [1 - 8*0.5*0.5*pi] is negative and [sumRhoCorr] is 0.5 as well.  With
    the bin whose density is NaN, [max(rho, 0)] is 0 and nothing is taken
    from the neutral sum: [sumRhoCorr = 0.5 + 1]. *)
Lemma pileup_correction_witness :
  let l' :=
    compute (default_config [0%nat] (Some [4%nat])) pileup_heap
      [1; 2; 3]%nat 0%nat stale in
  let l'' :=
    compute (default_config [0%nat] (Some [5%nat])) pileup_heap
      [1; 2; 3]%nat 0%nat stale in
  (sumNeutral l' - 0.5 * sumChargedPU l')%float = (-1)%float
  /\ sumDBeta l' = 0.5%float
  /\ ratioDBeta l' = 0.03125%float
  /\ rho l' = 8%float
  /\ sumRhoCorr l' = 0.5%float
  /\ ratioRhoCorr l' = 0.03125%float
  /\ is_nan (rho l'') = true
  /\ sumRhoCorr l'' = 1.5%float.
Proof.
  cbv zeta.
  destruct (@pileup_correction float PtEtaPhi binary64 PtEtaPhi_vector
              (default_config [0%nat] (Some [4%nat])) pileup_heap
              [1; 2; 3]%nat 0%nat stale) as (Hd & Hr & Hrd & Hrr).
  destruct (@pileup_correction float PtEtaPhi binary64 PtEtaPhi_vector
              (default_config [0%nat] (Some [5%nat])) pileup_heap
              [1; 2; 3]%nat 0%nat stale) as (_ & Hr' & _).
  split; [vm_compute; reflexivity|].
  split; [rewrite Hd; vm_compute; reflexivity|].
  split; [rewrite Hrd, Hd; vm_compute; reflexivity|].
  split; [vm_compute; reflexivity|].
  split; [rewrite Hr; vm_compute; reflexivity|].
  split; [rewrite Hrr, Hr; vm_compute; reflexivity|].
  split; [vm_compute; reflexivity|].
  rewrite Hr'. vm_compute. reflexivity.
Defined.



(** C6, counterexample.  The only isolation object of [soft_heap] is below
    [PTMin] and the pre-filter result is the empty array; the candidate is
    evaluated with zero sums, has ratio [0/16 = 0 <= ptRatioMax], passes the
    default selection and is added to the output array. *)
Lemma empty_subarray_emits :
  let self := default_config [0%nat] None in
  let st' := Process (fun x => x) self (Some []) stale soft_heap [] in
  GetCategory (fPTMin self) (soft_heap 1%nat) = (-1)%Z
  /\ ratio (locals st') = 0%float
  /\ fOutputArray st' = [0%nat]
  /\ fOutputArray st' <> [].
Proof.
  cbv zeta. split; [vm_compute; reflexivity|].
  split; [vm_compute; reflexivity|]. split; [vm_compute; reflexivity|].
  vm_compute. discriminate.
Qed.

(** C7, counterexample.  The candidate of [zero_pt_heap] has [Pt() == 0] and
    one neutral object of [pt = 1] in its cone: its ratio is
    [1/0 = +infinity], which is [> ptRatioMax], and the third branch rejects
    it although neither the first nor the second does. *)
Lemma zero_pt_rejected_by_ratio :
  let self := default_config [0%nat] None in
  let st := mkState zero_pt_heap [] stale in
  let l := choose self (compute self zero_pt_heap [1%nat] 0%nat stale) in
  PrimFloat.eqb (Pt (Momentum (zero_pt_heap 0%nat))) 0%float = true
  /\ ratio l = infinity
  /\ fUsePTSum self && negb (fUseLooseID self)
     && PrimFloat.ltb (fPTSumMax self) (sum l) = false
  /\ fUseLooseID self && negb (fUsePTSum self)
     && PrimFloat.ltb (IsoCut l) (sum l) = false
  /\ fOutputArray (iteration (fun x => x) self [1%nat] st 0%nat) = []
  /\ fOutputArray (Process (fun x => x) self (Some [1%nat]) stale
                     zero_pt_heap []) = [].
Proof.
  cbv zeta. repeat split; vm_compute; reflexivity.
Qed.

(** The candidate of [zero_pt_far_heap] has nothing in its cone: the sum
    is 0, the ratio is [0/0 = NaN], and the candidate is added to the
    output. *)
Lemma zero_pt_candidate_witness :
  PrimFloat.eqb (Pt (Momentum (zero_pt_far_heap 0%nat))) 0%float = true
  /\ fOutputArray
       (iteration (fun x => x) (default_config [0%nat] None) [1%nat]
          (mkState zero_pt_far_heap [] stale) 0%nat)
     = [0%nat].
Proof.
  split; [vm_compute; reflexivity|].
  destruct (@zero_pt_candidate PtEtaPhi PtEtaPhi_vector (fun x => x)
              (default_config [0%nat] None) [1%nat]
              (mkState zero_pt_far_heap [] stale) 0%nat eq_refl)
    as (_ & _ & Hnan & Hout).
  rewrite (Hout (Hnan eq_refl)). vm_compute. reflexivity.
Defined.

(** The product [max(rho, 0)*deltaRMax*deltaRMax*pi] of line 269 is taken
    left to right; in binary64 squaring [deltaRMax] first gives another
    value, for instance for [rho = 3] and [deltaRMax = 0.3]. *)
Example area_product_order :
  let dR := 0x1.3333333333333p-2%float in
  PrimFloat.eqb (Max 3%float d0 * dR * dR * Pi)%dbl
    (Max 3%float d0 * (dR * dR) * Pi)%dbl
  = false.
Proof. vm_compute. reflexivity. Qed.

(** The cone boundary: the object at [DeltaR = 0.5 = deltaRMax] contributes
    its [pt = 1], the object one binary64 step further out does not. *)
Example cone_boundary_inclusive :
  let l' :=
    compute (default_config [0%nat] None) boundary_heap [1; 2]%nat 0%nat
      stale in
  DeltaR (Momentum (boundary_heap 0%nat)) (Momentum (boundary_heap 1%nat))
  = 0.5%float
  /\ sumAllParticles l' = 1%float /\ sumNeutral l' = 1%float
  /\ counter l' = 1%Z.
Proof. cbv zeta. repeat split; vm_compute; reflexivity. Qed.

(** In binary64 the three buckets need not add up to [sumAllParticles]
    exactly: on [rounding_heap], [sumAllParticles] is [2^53] and the buckets
    add up to [2^53 + 2]. *)
Example category_sums_rounding :
  let l' :=
    compute (default_config [0%nat] None) rounding_heap [1; 2; 3]%nat 0%nat
      stale in
  sumAllParticles l' = 0x1p+53%float
  /\ (sumChargedNoPU l' + sumChargedPU l' + sumNeutral l')%float
     = 0x1.0000000000001p+53%float.
Proof. cbv zeta. split; vm_compute; reflexivity. Qed.

From Stdlib Require Import Permutation.

(** * The pass as a whole *)

Section Pass.

Context {D V : Type} {arith : Double D} {kin : LorentzVector D V}.

Variable to_member : D -> D.
Variable self : Isolation D.

Local Open Scope double_scope.

Lemma write_isolation_same_inputs (h h' : Heap D V) (l : Locals D) (p : Ptr) :
  same_inputs h h' ->
  write_isolation to_member l (h' p) = write_isolation to_member l (h p).
Proof.
  intros Hs. unfold write_isolation.
  destruct (Hs p) as (-> & -> & -> & -> & ->). reflexivity.
Qed.

Lemma Process_same_inputs (isolationArray : option (list Ptr))
    (junk : Locals D) (h : Heap D V) (out : list Ptr) :
  same_inputs h (objects (Process to_member self isolationArray junk h out)).
Proof.
  unfold Process. destruct isolationArray as [array|].
  - destruct (@candidate_loop D V arith kin to_member self h array junk
                (fCandidateInputArray self)
                (mkState h out (set_rho d0 (set_eta d0 junk)))
                (same_inputs_refl h)) as (Hs & _).
    exact Hs.
  - apply same_inputs_refl.
Qed.

Lemma count_occ_filter (f : Ptr -> bool) (ps : list Ptr) (p : Ptr) :
  count_occ Nat.eq_dec (filter f ps) p
  = if f p then count_occ Nat.eq_dec ps p else 0%nat.
Proof.
  induction ps as [|c cs IH]; cbn [filter count_occ].
  - destruct (f p); reflexivity.
  - destruct (Nat.eq_dec c p) as [->|Hne].
    + destruct (f p) eqn:Hf.
      * cbn [count_occ]. destruct (Nat.eq_dec p p); [|contradiction].
        rewrite IH. reflexivity.
      * exact IH.
    + destruct (f c); [cbn [count_occ]; destruct (Nat.eq_dec c p);
                       [contradiction|] |]; exact IH.
Qed.

(** X1.  The output array after a pass is the output array before it,
    followed by the accepted candidates in the order of the candidate array:
    nothing already in the output is removed or moved, candidates are
    neither reordered nor deduplicated, and whether a candidate is accepted
    is decided on the heap as it was when the pass began, whatever the
    earlier turns of the loop have written. *)
Theorem output_in_candidate_order (isolationArray : list Ptr)
    (junk l : Locals D) (h : Heap D V) (out : list Ptr) :
  let st' := Process to_member self (Some isolationArray) junk h out in
  let accepted c :=
    negb (rejected self (choose self (compute self h isolationArray c l))) in
  fOutputArray st' = out ++ filter accepted (fCandidateInputArray self)
  /\ (forall p,
        In p (fOutputArray st')
        <-> In p out
            \/ (In p (fCandidateInputArray self) /\ accepted p = true))
  /\ (forall p,
        count_occ Nat.eq_dec (fOutputArray st') p
        = (count_occ Nat.eq_dec out p
           + if accepted p
             then count_occ Nat.eq_dec (fCandidateInputArray self) p
             else 0)%nat).
Proof.
  cbv zeta.
  pose proof (Process_output to_member self isolationArray junk l h out) as E.
  split; [exact E|]. split.
  - intros p. rewrite E, in_app_iff, filter_In. reflexivity.
  - intros p. rewrite E, count_occ_app, count_occ_filter. reflexivity.
Qed.

(** X2.  A pass writes nothing but the six isolation members of the objects
    of the candidate array: every object keeps its momentum, charge,
    pile-up flag, unique ID and edges, and an object that is not in the
    candidate array (an isolation object, a rho bin) is left as it was. *)
Theorem pass_writes_only_candidates (isolationArray : option (list Ptr))
    (junk : Locals D) (h : Heap D V) (out : list Ptr) :
  let st' := Process to_member self isolationArray junk h out in
  (forall p,
      Momentum (objects st' p) = Momentum (h p)
      /\ Charge (objects st' p) = Charge (h p)
      /\ IsRecoPU (objects st' p) = IsRecoPU (h p)
      /\ UniqueID (objects st' p) = UniqueID (h p)
      /\ Edges (objects st' p) = Edges (h p))
  /\ (forall p, ~ In p (fCandidateInputArray self) -> objects st' p = h p).
Proof.
  cbv zeta. split.
  - exact (Process_same_inputs isolationArray junk h out).
  - intros p Hp. destruct isolationArray as [array|]; [|reflexivity].
    destruct (Process_objects to_member self array junk junk h out p)
      as [_ Hf].
    exact (Hf Hp).
Qed.

(** X3.  No local variable of [Process] is read before it is assigned:
    whatever the frame holds on entry, the pass leaves the same output array
    and the same objects. *)
Theorem indeterminate_locals_never_read (isolationArray : option (list Ptr))
    (junk junk' : Locals D) (h : Heap D V) (out : list Ptr) :
  fOutputArray (Process to_member self isolationArray junk h out)
  = fOutputArray (Process to_member self isolationArray junk' h out)
  /\ (forall p,
        objects (Process to_member self isolationArray junk h out) p
        = objects (Process to_member self isolationArray junk' h out) p).
Proof.
  destruct isolationArray as [array|]; [|split; reflexivity].
  split.
  - rewrite (Process_output to_member self array junk junk h out).
    rewrite (Process_output to_member self array junk' junk h out).
    reflexivity.
  - intros p.
    destruct (Process_objects to_member self array junk junk h out p)
      as [Hw Hf].
    destruct (Process_objects to_member self array junk' junk h out p)
      as [Hw' Hf'].
    destruct (in_dec Nat.eq_dec p (fCandidateInputArray self)) as [Hp|Hp].
    + rewrite (Hw Hp), (Hw' Hp). reflexivity.
    + rewrite (Hf Hp), (Hf' Hp). reflexivity.
Qed.

(** X4.  The result of a pass depends on the input members only.  On two
    heaps that agree on momentum, charge, pile-up flag, unique ID and edges
    of every object (they may differ in the isolation members, for instance
    by what an earlier module or an earlier pass wrote there) the pass emits
    the same candidates; and when the sub-array is not null, so that the
    pass runs its loop, it leaves the candidates of the candidate array
    equal in all their members.  (With a null sub-array the pass writes
    nothing, and the isolation members stay as different as they were.) *)
Theorem pass_depends_on_inputs_only (isolationArray : option (list Ptr))
    (junk junk' : Locals D) (h h' : Heap D V) (out : list Ptr) :
  same_inputs h h' ->
  fOutputArray (Process to_member self isolationArray junk' h' out)
  = fOutputArray (Process to_member self isolationArray junk h out)
  /\ (isolationArray <> None ->
      forall p,
        In p (fCandidateInputArray self) ->
        objects (Process to_member self isolationArray junk' h' out) p
        = objects (Process to_member self isolationArray junk h out) p).
Proof.
  intros Hs. destruct isolationArray as [array|];
    [|split; [reflexivity | intros Hn; contradiction]].
  assert (Hc : forall c,
             compute self h' array c junk = compute self h array c junk)
    by (intros c; apply compute_same_inputs, Hs).
  split.
  - rewrite (Process_output to_member self array junk' junk h' out).
    rewrite (Process_output to_member self array junk junk h out).
    f_equal. apply filter_same. intros c. rewrite Hc. reflexivity.
  - intros _ p Hp.
    destruct (Process_objects to_member self array junk' junk h' out p)
      as [Hw' _].
    destruct (Process_objects to_member self array junk junk h out p)
      as [Hw _].
    rewrite (Hw' Hp), (Hw Hp), Hc. apply write_isolation_same_inputs, Hs.
Qed.

(** X5.  A pass repeated on the heap it has left (same arrays, output
    array emptied back to what it was) emits the same candidates again and
    changes no object: the isolation members a pass writes are never read
    back. *)
Theorem pass_repeated_is_stable (isolationArray : option (list Ptr))
    (junk junk' : Locals D) (h : Heap D V) (out : list Ptr) :
  let st1 := Process to_member self isolationArray junk h out in
  let st2 := Process to_member self isolationArray junk' (objects st1) out in
  fOutputArray st2 = fOutputArray st1
  /\ (forall p, objects st2 p = objects st1 p).
Proof.
  cbv zeta. destruct isolationArray as [array|]; [|split; reflexivity].
  set (st1 := Process to_member self (Some array) junk h out).
  assert (Hs : same_inputs h (objects st1))
    by apply (Process_same_inputs (Some array) junk h out).
  assert (Hc : forall c,
             compute self (objects st1) array c junk
             = compute self h array c junk)
    by (intros c; apply compute_same_inputs, Hs).
  split.
  - rewrite (Process_output to_member self array junk' junk (objects st1) out).
    unfold st1 at 2.
    rewrite (Process_output to_member self array junk junk h out).
    f_equal. apply filter_same. intros c. rewrite Hc. reflexivity.
  - intros p.
    destruct (Process_objects to_member self array junk' junk (objects st1)
                out p) as [Hw2 Hf2].
    destruct (in_dec Nat.eq_dec p (fCandidateInputArray self)) as [Hp|Hp];
      [|exact (Hf2 Hp)].
    rewrite (Hw2 Hp), Hc.
    destruct (Process_objects to_member self array junk junk h out p)
      as [Hw1 _].
    fold st1 in Hw1. rewrite (Hw1 Hp). apply write_isolation_twice.
Qed.

(** ** Which isolation objects matter *)

Lemma filter_in_cone_kept (h : Heap D V) (candidate : Ptr)
    (keep : Ptr -> bool) (array : list Ptr) :
  (forall o, In o array -> keep o = false ->
             in_cone self h candidate o = false) ->
  filter (in_cone self h candidate) (filter keep array)
  = filter (in_cone self h candidate) array.
Proof.
  induction array as [|o os IH]; intros Hk; [reflexivity|].
  cbn [filter].
  assert (IH' : filter (in_cone self h candidate) (filter keep os)
                = filter (in_cone self h candidate) os)
    by (apply IH; intros q Hq; apply Hk; right; exact Hq).
  destruct (keep o) eqn:Ek.
  - cbn [filter]. rewrite IH'. reflexivity.
  - rewrite (Hk o (or_introl eq_refl) Ek). exact IH'.
Qed.

(** X6.  Only the objects in the cone matter to a turn of the candidate
    loop: removing from the isolation array objects that are farther than
    [deltaRMax] from the candidate, or that carry the candidate's own unique
    ID (the candidate itself, when it is an isolation object too), changes
    neither what is written nor whether the candidate is emitted. *)
Theorem dropped_objects_do_not_matter (keep : Ptr -> bool)
    (isolationArray : list Ptr) (st : State D V) (candidate : Ptr) :
  (forall o,
      In o isolationArray -> keep o = false ->
      (DeltaR (Momentum (objects st candidate)) (Momentum (objects st o))
       <=? fDeltaRMax self) = false
      \/ UniqueID (objects st o) = UniqueID (objects st candidate)) ->
  iteration to_member self (filter keep isolationArray) st candidate
  = iteration to_member self isolationArray st candidate.
Proof.
  intros Hk. unfold iteration. f_equal. rewrite !compute_closed_form.
  cbv zeta. rewrite filter_in_cone_kept; [reflexivity|].
  intros o Ho Ek. unfold in_cone.
  destruct (Hk o Ho Ek) as [-> | E]; [reflexivity|].
  rewrite E, N.eqb_refl. apply andb_false_r.
Qed.

(** ** The rho array without the rho correction *)

(** X20.  With [UseRhoCorrection] off the rho array has no influence on
    the selection: whatever array is configured (or none), the pass emits
    the same candidates, and it writes the same values into every member
    except [IsolationVarRhoCorr]. *)
Theorem rho_array_unused_without_rho_correction
    (rhoArray : option (list Ptr)) (isolationArray : option (list Ptr))
    (junk : Locals D) (h : Heap D V) (out : list Ptr) :
  fUseRhoCorrection self = false ->
  let st := Process to_member self isolationArray junk h out in
  let st' :=
    Process to_member (with_rho_array rhoArray self) isolationArray junk h
      out in
  fOutputArray st' = fOutputArray st
  /\ (forall p,
        IsolationVar (objects st' p) = IsolationVar (objects st p)
        /\ SumPtCharged (objects st' p) = SumPtCharged (objects st p)
        /\ SumPtNeutral (objects st' p) = SumPtNeutral (objects st p)
        /\ SumPtChargedPU (objects st' p) = SumPtChargedPU (objects st p)
        /\ SumPt (objects st' p) = SumPt (objects st p)).
Proof.
  intros Hoff. cbv zeta.
  destruct isolationArray as [array|];
    [|split; [reflexivity | intros p; repeat split]].
  split.
  - rewrite (Process_output to_member (with_rho_array rhoArray self) array
               junk junk h out).
    rewrite (Process_output to_member self array junk junk h out).
    f_equal. apply filter_same. intros c.
    rewrite !rejected_choose. cbv zeta. rewrite !compute_closed_form.
    cbv zeta.
    cbn [fUseRhoCorrection fUsePTSum fUseLooseID fPTSumMax fPTRatioMax
         fDeltaRMax Iso_p0 Iso_p1 Iso_p0_ee Iso_p1_ee with_rho_array
         sumDBeta ratioDBeta sumRhoCorr ratioRhoCorr IsoCut].
    rewrite Hoff. reflexivity.
  - intros p.
    destruct (Process_objects to_member (with_rho_array rhoArray self) array
                junk junk h out p) as [Hw' Hf'].
    destruct (Process_objects to_member self array junk junk h out p)
      as [Hw Hf].
    cbn [fCandidateInputArray with_rho_array] in Hw', Hf'.
    destruct (in_dec Nat.eq_dec p (fCandidateInputArray self)) as [Hp|Hp].
    + rewrite (Hw' Hp), (Hw Hp), !compute_closed_form. cbv zeta.
      cbn. repeat split.
    + rewrite (Hf' Hp), (Hf Hp). repeat split.
Qed.

End Pass.

(** * Order and NaN in binary64 *)



Lemma eqb_not_ltb (x y : float) :
  PrimFloat.eqb x y = true -> PrimFloat.ltb x y = false.
Proof.
  rewrite FloatAxioms.eqb_spec, ltb_spec. unfold SFeqb, SFltb.
  destruct (SFcompare (Prim2SF x) (Prim2SF y)) as [[]|]; intros;
    try reflexivity; discriminate.
Qed.

Lemma nan_not_below (x m : float) :
  is_nan x = true -> PrimFloat.ltb x m = false.
Proof.
  intros H. apply is_nan_Prim2SF in H. rewrite ltb_spec, H. reflexivity.
Qed.

Lemma leb_nan_l (x m : float) : is_nan x = true -> PrimFloat.leb x m = false.
Proof.
  intros H. apply is_nan_Prim2SF in H. rewrite leb_spec, H. reflexivity.
Qed.

Lemma leb_nan_r (x m : float) : is_nan m = true -> PrimFloat.leb x m = false.
Proof.
  intros H. apply is_nan_Prim2SF in H. rewrite leb_spec, H.
  destruct (Prim2SF x); reflexivity.
Qed.

Section Binary64Edges.

Context {V : Type} {kin : LorentzVector float V}.

Variable self : Isolation float.

Local Open Scope double_scope.

(** X8.  The classifier in binary64: an object whose [Pt()] equals the
    threshold is kept (category 0), and so is every object when its [Pt()]
    or the threshold is NaN, since [Pt() < fPTMin] is then false. *)
Theorem classifier_keeps_boundary_and_nan (ptMin : float)
    (track : Candidate float V) :
  PrimFloat.eqb (Pt (Momentum track)) ptMin = true
  \/ is_nan (Pt (Momentum track)) = true \/ is_nan ptMin = true ->
  GetCategory ptMin track = 0%Z.
Proof.
  intros H. unfold GetCategory.
  assert (E : Dlt (Pt (Momentum track)) ptMin = false).
  { destruct H as [H|[H|H]].
    - apply eqb_not_ltb, H.
    - apply nan_not_below, H.
    - apply nan_not_above, H. }
  rewrite E. reflexivity.
Qed.


(** X10.  An isolation object whose distance to the candidate is NaN never
    contributes (and nothing contributes when [fDeltaRMax] is NaN), since
    [DeltaR <= fDeltaRMax] is then false: with or without such an object in
    the isolation array the computation ends in the same frame. *)
Theorem nan_distance_never_contributes (h : Heap float V)
    (before after : list Ptr) (o candidate : Ptr) (l : Locals float) :
  is_nan (DeltaR (Momentum (h candidate)) (Momentum (h o))) = true
  \/ is_nan (fDeltaRMax self) = true ->
  compute self h (before ++ o :: after) candidate l
  = compute self h (before ++ after) candidate l.
Proof.
  intros H. rewrite !compute_closed_form. cbv zeta.
  assert (E : in_cone self h candidate o = false).
  { unfold in_cone.
    change (Dle (DeltaR (Momentum (h candidate)) (Momentum (h o)))
              (fDeltaRMax self))
      with (PrimFloat.leb (DeltaR (Momentum (h candidate)) (Momentum (h o)))
              (fDeltaRMax self)).
    destruct H as [H|H];
      [rewrite (leb_nan_l _ _ H) | rewrite (leb_nan_r _ _ H)]; reflexivity. }
  rewrite !filter_app. cbn [filter]. rewrite E. reflexivity.
Qed.

End Binary64Edges.

(** ** NaN in the arithmetic, and the floor at zero *)

Lemma add_nan_r (x y : float) : is_nan y = true -> is_nan (x + y)%float = true.
Proof.
  intros H. apply is_nan_Prim2SF in H. apply is_nan_Prim2SF.
  rewrite add_spec, H. destruct (Prim2SF x); reflexivity.
Qed.

Lemma mul_nan_r (x y : float) : is_nan y = true -> is_nan (x * y)%float = true.
Proof.
  intros H. apply is_nan_Prim2SF in H. apply is_nan_Prim2SF.
  rewrite mul_spec, H. destruct (Prim2SF x); reflexivity.
Qed.

Lemma div_nan_r (x y : float) : is_nan y = true -> is_nan (x / y)%float = true.
Proof.
  intros H. apply is_nan_Prim2SF in H. apply is_nan_Prim2SF.
  rewrite div_spec, H. destruct (Prim2SF x); reflexivity.
Qed.

Lemma leb_zero_not_below (a : float) :
  PrimFloat.leb 0%float a = true -> PrimFloat.ltb a 0%float = false.
Proof.
  rewrite leb_spec, ltb_spec. change (Prim2SF 0%float) with (S754_zero false).
  destruct (Prim2SF a) as [s|s| |s m e]; try destruct s; cbn;
    intros H; try reflexivity; discriminate H.
Qed.

(** [TMath::Max(a, 0.0)] in binary64: never NaN, never below zero, and 0.0
    when [a] is NaN. *)
Lemma max_zero_binary64 (a : float) :
  let m := if PrimFloat.leb 0%float a then a else 0%float in
  is_nan m = false
  /\ PrimFloat.ltb m 0%float = false
  /\ (is_nan a = true -> m = 0%float).
Proof.
  cbv zeta. destruct (PrimFloat.leb 0%float a) eqn:E.
  - split; [|split].
    + destruct (is_nan a) eqn:N; [|reflexivity].
      rewrite (leb_nan_r _ _ N) in E. discriminate E.
    + apply leb_zero_not_below, E.
    + intros N. rewrite (leb_nan_r _ _ N) in E. discriminate E.
  - split; [reflexivity|]. split; [reflexivity|]. reflexivity.
Qed.

Section Binary64Candidate.

Context {V : Type} {kin : LorentzVector float V}.

Variable to_member : float -> float.
Variable self : Isolation float.

Local Open Scope double_scope.

(** X11.  A candidate whose [Pt()] is NaN, in binary64: both ratios and
    the parametrised cut are NaN, the tests [sum > isoCut] and
    [ratio > ptRatioMax] are false, and the candidate is added to the output
    unless [usePtSum && !useLooseId && sum > ptSumMax] rejects it. *)
Theorem nan_pt_candidate (isolationArray : list Ptr) (st : State float V)
    (candidate : Ptr) :
  is_nan (Pt (Momentum (objects st candidate))) = true ->
  let l := compute self (objects st) isolationArray candidate (locals st) in
  let the_sum := if fUseRhoCorrection self then sumRhoCorr l else sumDBeta l in
  let st' := iteration to_member self isolationArray st candidate in
  is_nan (ratioDBeta l) = true
  /\ is_nan (ratioRhoCorr l) = true
  /\ is_nan (IsoCut l) = true
  /\ fOutputArray st'
     = if fUsePTSum self && negb (fUseLooseID self)
          && (the_sum >? fPTSumMax self)
       then fOutputArray st
       else fOutputArray st ++ [candidate].
Proof.
  intros Hpt. cbv zeta.
  rewrite iteration_output, rejected_choose. cbv zeta.
  destruct (pileup_ratios self (objects st) isolationArray candidate
              (locals st)) as (Hd & Hr).
  set (l := compute self (objects st) isolationArray candidate (locals st))
    in *.
  assert (Nd : is_nan (ratioDBeta l) = true)
    by (rewrite Hd; apply div_nan_r, Hpt).
  assert (Nr : is_nan (ratioRhoCorr l) = true)
    by (rewrite Hr; apply div_nan_r, Hpt).
  assert (Nc : is_nan (IsoCut l) = true).
  { unfold l. rewrite compute_IsoCut.
    destruct (Dabs (Eta (Momentum (objects st candidate))) <? d1_488);
      apply add_nan_r, mul_nan_r, Hpt. }
  split; [exact Nd|]. split; [exact Nr|]. split; [exact Nc|].
  assert (Hc : Dlt (IsoCut l)
                 (if fUseRhoCorrection self then sumRhoCorr l else sumDBeta l)
               = false)
    by (apply nan_not_below, Nc).
  assert (Hq : Dlt (fPTRatioMax self)
                 (if fUseRhoCorrection self
                  then ratioRhoCorr l else ratioDBeta l) = false)
    by (apply nan_not_above; destruct (fUseRhoCorrection self); assumption).
  rewrite Hc, Hq, !andb_false_r, !orb_false_r. reflexivity.
Qed.

(** X12.  The floor at zero of the pile-up corrections, in binary64: the
    term each correction adds to the charged sum is never NaN and never
    below zero, whatever the sums and rho are.  When the difference under
    the floor is NaN (infinity minus infinity, once the neutral and the
    pile-up sum have both overflowed) the term is 0.0 and the corrected sum
    is the charged sum; and a rho that is NaN counts as 0.0. *)
Theorem pileup_floor_in_binary64 (h : Heap float V)
    (isolationArray : list Ptr) (candidate : Ptr) (l : Locals float) :
  let l' := compute self h isolationArray candidate l in
  let a := sumNeutral l' - d0_5 * sumChargedPU l' in
  let r := if rho l' >=? d0 then rho l' else d0 in
  let b := sumNeutral l' - r * fDeltaRMax self * fDeltaRMax self * Pi in
  let floor_a := if a >=? d0 then a else d0 in
  let floor_b := if b >=? d0 then b else d0 in
  sumDBeta l' = sumChargedNoPU l' + floor_a
  /\ sumRhoCorr l' = sumChargedNoPU l' + floor_b
  /\ is_nan floor_a = false /\ PrimFloat.ltb floor_a 0%float = false
  /\ is_nan floor_b = false /\ PrimFloat.ltb floor_b 0%float = false
  /\ is_nan r = false /\ PrimFloat.ltb r 0%float = false
  /\ (is_nan a = true -> sumDBeta l' = sumChargedNoPU l' + 0%float)
  /\ (is_nan b = true -> sumRhoCorr l' = sumChargedNoPU l' + 0%float)
  /\ (is_nan (rho l') = true -> r = 0%float).
Proof.
  cbv zeta. rewrite compute_closed_form. cbv zeta.
  cbn [sumDBeta sumRhoCorr sumChargedNoPU sumChargedPU sumNeutral rho].
  unfold Max. cbn [Dle binary64 d0].
  set (nopu := add_pts h (filter (in_category h ChargedNoPU) _) _).
  set (a := (_ - d0_5 * _)%dbl).
  set (x := rho_of self h _).
  set (b := (_ - _ * Pi)%dbl).
  destruct (max_zero_binary64 a) as (Na & La & Za).
  destruct (max_zero_binary64 b) as (Nb & Lb & Zb).
  destruct (max_zero_binary64 x) as (Nx & Lx & Zx).
  cbv zeta in Na, La, Za, Nb, Lb, Zb, Nx, Lx, Zx.
  split; [reflexivity|]. split; [reflexivity|].
  split; [exact Na|]. split; [exact La|].
  split; [exact Nb|]. split; [exact Lb|].
  split; [exact Nx|]. split; [exact Lx|].
  split; [intros N; rewrite (Za N); reflexivity|].
  split; [intros N; rewrite (Zb N); reflexivity|].
  exact Zx.
Qed.

End Binary64Candidate.

(** * The order of the rho array *)

Section RhoArrayOrder.

Context {D V : Type} {arith : Double D} {kin : LorentzVector D V}.

Local Open Scope double_scope.

Lemma last_match_Some (f : Ptr -> bool) (ps : list Ptr) (o : Ptr) :
  last_match f ps = Some o -> In o ps /\ f o = true.
Proof.
  unfold last_match. intros H. apply find_some in H.
  destruct H as [Hin Hf]. split; [apply in_rev, Hin | exact Hf].
Qed.

Lemma last_match_None (f : Ptr -> bool) (ps : list Ptr) :
  last_match f ps = None -> forall o, In o ps -> f o = false.
Proof.
  unfold last_match. intros H o Ho.
  apply (find_none f (rev ps) H). apply in_rev. rewrite rev_involutive.
  exact Ho.
Qed.

(** X16.  When the bins that contain the candidate's [|eta|] all carry the
    same density (in particular when the bins do not overlap, so that at
    most one matches), the scan of the rho array ends with the same rho for
    every order of the array. *)
Theorem rho_scan_order_irrelevant (h : Heap D V) (rhoArray rhoArray' : list Ptr)
    (l : Locals D) :
  (forall o o',
      In o rhoArray -> In o' rhoArray ->
      (eta l >=? Edges (h o) 0) && (eta l <? Edges (h o) 1) = true ->
      (eta l >=? Edges (h o') 0) && (eta l <? Edges (h o') 1) = true ->
      Pt (Momentum (h o)) = Pt (Momentum (h o'))) ->
  Permutation rhoArray rhoArray' ->
  fold_left (find_rho_step h) rhoArray l
  = fold_left (find_rho_step h) rhoArray' l.
Proof.
  intros Hsame Hperm. rewrite !find_rho_scan, !rho_scan_last. f_equal.
  destruct (last_match (in_bin h (eta l)) rhoArray) as [o|] eqn:E;
    destruct (last_match (in_bin h (eta l)) rhoArray') as [o'|] eqn:E'.
  - apply last_match_Some in E. apply last_match_Some in E'.
    destruct E as [Hin Hf]. destruct E' as [Hin' Hf'].
    apply Hsame; [exact Hin | | exact Hf | exact Hf'].
    apply (Permutation_in _ (Permutation_sym Hperm)), Hin'.
  - apply last_match_Some in E. destruct E as [Hin Hf].
    pose proof (last_match_None _ _ E' o (Permutation_in _ Hperm Hin)) as Hn.
    congruence.
  - apply last_match_Some in E'. destruct E' as [Hin' Hf'].
    pose proof (last_match_None _ _ E o'
                  (Permutation_in _ (Permutation_sym Hperm) Hin')) as Hn.
    congruence.
  - reflexivity.
Qed.

End RhoArrayOrder.

(** * The helper objects of the module *)

Section LifecycleProperties.

Import Lifecycle.

Context {D : Type} {arith : Double D}.

Local Open Scope string_scope.
Local Open Scope list_scope.

Variable ArrayRef : Type.
Variable GetDouble : String.string -> D -> D.
Variable GetBool : String.string -> bool -> bool.
Variable GetString : String.string -> String.string -> String.string.
Variable ImportArray : String.string -> ArrayRef.
Variable ExportArray : String.string -> ArrayRef.
Variable literal : Q -> D.

Local Abbreviation Init :=
  (Lifecycle.Init GetDouble GetBool GetString ImportArray ExportArray literal).

Lemma delete_live (a nx : Address) (pre post : list Address) :
  ~ In a pre -> ~ In a post ->
  delete a (mkMemory nx (pre ++ a :: post)) = Some (mkMemory nx (pre ++ post)).
Proof.
  intros Hpre Hpost. unfold delete. cbn [live next].
  rewrite existsb_app. cbn [existsb]. rewrite Nat.eqb_refl, orb_true_r.
  rewrite remove_app, remove_cons.
  rewrite !notin_remove by assumption. reflexivity.
Qed.

Lemma delete_first (a nx : Address) (post : list Address) :
  ~ In a post ->
  delete a (mkMemory nx (a :: post)) = Some (mkMemory nx post).
Proof. intros H. exact (delete_live a nx [] post (fun F => F) H). Qed.

Lemma delete_second (a b nx : Address) (post : list Address) :
  ~ In a [b] -> ~ In a post ->
  delete a (mkMemory nx (b :: a :: post)) = Some (mkMemory nx (b :: post)).
Proof. intros Hb H. exact (delete_live a nx [b] post Hb H). Qed.

Lemma delete_dead (a : Address) (mem : Memory) :
  ~ In a (live mem) -> delete a mem = None.
Proof.
  intros Hn. unfold delete.
  destruct (existsb (Nat.eqb a) (live mem)) eqn:E; [|reflexivity].
  apply existsb_exists in E. destruct E as (b & Hb & Eb).
  apply Nat.eqb_eq in Eb. subst b. contradiction.
Qed.

Ltac fresh_address Hwf :=
  unfold Address in *; cbn [In]; intros Hin;
  repeat (destruct Hin as [Hin|Hin]; [lia|]);
  first [ contradiction | apply Hwf in Hin; lia ].

Lemma init_finish_live (raw : Members ArrayRef) (mem : Memory)
    (out : list Printed) :
  well_formed mem ->
  let m0 := fst (Constructor raw mem) in
  let mem0 := snd (Constructor raw mem) in
  let m1 := fst (fst (Init m0 mem0 out)) in
  let mem1 := snd (fst (Init m0 mem0 out)) in
  exists mem2,
    Finish m1 mem1 = Some mem2 /\ live mem2 = next mem :: live mem.
Proof.
  intros Hwf. cbv zeta. destruct mem as [n L].
  unfold well_formed in Hwf. cbn [next live] in Hwf.
  unfold Lifecycle.Init, Constructor, new. cbn [fst snd next live].
  destruct (not_empty (GetString "RhoInputArray" String.EmptyString));
    cbn [fst snd next live]; unfold Finish;
    cbn [fItRhoInputArray fFilter fItCandidateInputArray
         fItIsolationInputArray delete_if_set].
  - rewrite delete_first by fresh_address Hwf.
    rewrite delete_second by fresh_address Hwf.
    rewrite delete_first by fresh_address Hwf.
    rewrite delete_first by fresh_address Hwf.
    eexists. split; reflexivity.
  - rewrite delete_second by fresh_address Hwf.
    rewrite delete_first by fresh_address Hwf.
    rewrite delete_first by fresh_address Hwf.
    eexists. split; reflexivity.
Qed.

(** X17.  [Finish] deletes exactly what [Init] allocated.  On a freshly
    constructed module, [Init] followed by [Finish] deletes the three or
    four helper objects [Init] created and nothing else, so that the live
    objects are again those from before [Init]; the classifier allocated by
    the constructor is among them, and, the destructor being empty, is
    never deleted.  [Finish] without an [Init] before it deletes nothing. *)
Theorem init_finish_balanced (raw : Members ArrayRef) (mem : Memory)
    (out : list Printed) :
  well_formed mem ->
  let m0 := fst (Constructor raw mem) in
  let mem0 := snd (Constructor raw mem) in
  let m1 := fst (fst (Init m0 mem0 out)) in
  let mem1 := snd (fst (Init m0 mem0 out)) in
  Finish m0 mem0 = Some mem0
  /\ exists mem2,
       Finish m1 mem1 = Some mem2
       /\ live mem2 = live mem0
       /\ live (Destructor m1 mem2) = next mem :: live mem.
Proof.
  intros Hwf. cbv zeta. split; [destruct mem; reflexivity|].
  destruct (init_finish_live raw mem out Hwf) as (mem2 & Hfin & Hlive).
  exists mem2. split; [exact Hfin|].
  split; [rewrite Hlive; destruct mem; reflexivity | exact Hlive].
Qed.

(** X18.  [Finish] leaves the pointers it deletes as they are, so it must
    not run twice: after [Init] and one [Finish] on a freshly constructed
    module, a second [Finish] deletes an object that is no longer live. *)
Theorem finish_twice_deletes_twice (raw : Members ArrayRef) (mem : Memory)
    (out : list Printed) (mem2 : Memory) :
  well_formed mem ->
  let m0 := fst (Constructor raw mem) in
  let mem0 := snd (Constructor raw mem) in
  let m1 := fst (fst (Init m0 mem0 out)) in
  let mem1 := snd (fst (Init m0 mem0 out)) in
  Finish m1 mem1 = Some mem2 ->
  Finish m1 mem2 = None.
Proof.
  intros Hwf. cbv zeta. intros Hfin.
  destruct (init_finish_live raw mem out Hwf) as (mem2' & Hfin' & Hlive).
  cbv zeta in Hfin'. rewrite Hfin in Hfin'. injection Hfin' as <-.
  revert Hlive. clear Hfin. destruct mem as [n L].
  unfold well_formed in Hwf. cbn [next live] in Hwf.
  unfold Lifecycle.Init, Constructor, new. cbn [fst snd next live].
  destruct (not_empty (GetString "RhoInputArray" String.EmptyString));
    cbn [fst snd next live]; intros Hlive; unfold Finish;
    cbn [fItRhoInputArray fFilter fItCandidateInputArray
         fItIsolationInputArray delete_if_set].
  - rewrite delete_dead; [reflexivity|]. rewrite Hlive. fresh_address Hwf.
  - rewrite delete_dead; [reflexivity|]. rewrite Hlive. fresh_address Hwf.
Qed.

(** X19.  After [Init], whatever the module held before, the rho array is
    set exactly when the configured [RhoInputArray] name is not empty, and
    whenever it is set its iterator is a live object: the
    [fItRhoInputArray->Reset()] that [Process] guards by [if(fRhoInputArray)]
    never goes through a null or deleted pointer. *)
Theorem rho_iterator_with_rho_array (m : Members ArrayRef) (mem : Memory)
    (out : list Printed) :
  let m1 := fst (fst (Init m mem out)) in
  let mem1 := snd (fst (Init m mem out)) in
  (fRhoInputArray m1 = None
   <-> not_empty (GetString "RhoInputArray" String.EmptyString) = false)
  /\ (forall array,
        fRhoInputArray m1 = Some array ->
        exists it, fItRhoInputArray m1 = Some it /\ In it (live mem1)).
Proof.
  cbv zeta. unfold Lifecycle.Init, new. cbn [fst snd next live].
  destruct (not_empty (GetString "RhoInputArray" String.EmptyString));
    cbn [fst snd fRhoInputArray fItRhoInputArray live].
  - split; [split; discriminate|].
    intros array _. eexists. split; [reflexivity|]. left; reflexivity.
  - split; [split; reflexivity|]. discriminate.
Qed.

End LifecycleProperties.

(** * The further theorems on concrete events *)

(** [event_heap_written] differs from [event_heap] in the isolation
    members of the candidate only; the pass emits the same candidates on
    both and leaves the candidate with the same members, [IsolationVar]
    being [1/16] where it was 7 and 0. *)
Lemma pass_depends_on_inputs_only_witness :
  let self := default_config [0%nat] None in
  let st := Process (fun x => x) self (Some [1; 2; 3]%nat) stale event_heap [] in
  let st' :=
    Process (fun x => x) self (Some [1; 2; 3]%nat) stale event_heap_written
      [] in
  same_inputs event_heap event_heap_written
  /\ IsolationVar (event_heap_written 0%nat) = 7%float
  /\ IsolationVar (event_heap 0%nat) = 0%float
  /\ fOutputArray st' = fOutputArray st
  /\ objects st' 0%nat = objects st 0%nat
  /\ IsolationVar (objects st 0%nat) = 0.0625%float.
Proof.
  cbv zeta.
  assert (H : same_inputs event_heap event_heap_written).
  { intros p. unfold event_heap_written, store.
    destruct (Nat.eqb p 0) eqn:E; [|repeat split].
    apply Nat.eqb_eq in E. subst p. repeat split. }
  split; [exact H|]. split; [reflexivity|]. split; [reflexivity|].
  destruct (@pass_depends_on_inputs_only float PtEtaPhi binary64
              PtEtaPhi_vector (fun x => x) (default_config [0%nat] None)
              (Some [1; 2; 3]%nat) stale stale event_heap
              event_heap_written [] H) as [Hout Hobj].
  split; [exact Hout|]. split.
  - apply Hobj; [discriminate | left; reflexivity].
  - vm_compute. reflexivity.
Defined.

(** The object 3 of [event_heap] is at [DeltaR = 1] from the candidate:
    the turn of the loop is the same without it. *)
Lemma dropped_objects_do_not_matter_witness :
  let self := default_config [0%nat] None in
  let st := mkState event_heap [] stale in
  let keep := fun o : Ptr => negb (Nat.eqb o 3) in
  (forall o,
      In o [1; 2; 3]%nat -> keep o = false ->
      PrimFloat.leb
        (DeltaR (Momentum (event_heap 0%nat)) (Momentum (event_heap o)))
        (fDeltaRMax self) = false
      \/ UniqueID (event_heap o) = UniqueID (event_heap 0%nat))
  /\ iteration (fun x => x) self [1; 2]%nat st 0%nat
     = iteration (fun x => x) self [1; 2; 3]%nat st 0%nat.
Proof.
  cbv zeta.
  assert (H : forall o,
             In o [1; 2; 3]%nat -> negb (Nat.eqb o 3) = false ->
             PrimFloat.leb
               (DeltaR (Momentum (event_heap 0%nat)) (Momentum (event_heap o)))
               (fDeltaRMax (default_config [0%nat] None)) = false
             \/ UniqueID (event_heap o) = UniqueID (event_heap 0%nat)).
  { intros o [<-|[<-|[<-|[]]]] Hk; try discriminate Hk.
    left. vm_compute. reflexivity. }
  split; [exact H|].
  exact (@dropped_objects_do_not_matter float PtEtaPhi binary64
           PtEtaPhi_vector (fun x => x) (default_config [0%nat] None)
           (fun o => negb (Nat.eqb o 3)) [1; 2; 3]%nat
           (mkState event_heap [] stale) 0%nat H).
Defined.

(** In binary64 the order of the isolation array matters: with the
    charged object of [pt = 2^53] first the two neutral objects of
    [pt = 1] are rounded away one by one, with it last they are not. *)
Example isolation_order_matters_in_binary64 :
  let self := default_config [0%nat] None in
  sumAllParticles (compute self rounding_heap [1; 2; 3]%nat 0%nat stale)
  = 0x1p+53%float
  /\ sumAllParticles (compute self rounding_heap [2; 3; 1]%nat 0%nat stale)
     = 0x1.0000000000001p+53%float.
Proof. cbv zeta. split; vm_compute; reflexivity. Qed.

(** An object of [pt = 0.5] is kept at the threshold 0.5. *)
Lemma classifier_keeps_boundary_and_nan_witness :
  let track := particle 0.5%float 0%float 0 false 1 in
  (PrimFloat.eqb (Pt (Momentum track)) 0.5%float = true
   \/ is_nan (Pt (Momentum track)) = true \/ is_nan 0.5%float = true)
  /\ GetCategory 0.5%float track = 0%Z.
Proof.
  cbv zeta.
  assert (H : PrimFloat.eqb
                (Pt (Momentum (particle 0.5%float 0%float 0 false 1)))
                0.5%float = true
              \/ is_nan (Pt (Momentum (particle 0.5%float 0%float 0 false 1)))
                 = true
              \/ is_nan 0.5%float = true)
    by (left; vm_compute; reflexivity).
  split; [exact H|].
  exact (@classifier_keeps_boundary_and_nan PtEtaPhi PtEtaPhi_vector
           0.5%float (particle 0.5%float 0%float 0 false 1) H).
Defined.


(** The object 1 of [nan_distance_heap] is at a NaN distance: the sums are
    those of the object 2 alone. *)
Lemma nan_distance_never_contributes_witness :
  let self := default_config [0%nat] None in
  (is_nan (DeltaR (Momentum (nan_distance_heap 0%nat))
             (Momentum (nan_distance_heap 1%nat))) = true
   \/ is_nan (fDeltaRMax self) = true)
  /\ compute self nan_distance_heap [1; 2]%nat 0%nat stale
     = compute self nan_distance_heap [2%nat] 0%nat stale
  /\ sumAllParticles (compute self nan_distance_heap [1; 2]%nat 0%nat stale)
     = 2%float.
Proof.
  cbv zeta.
  assert (H : is_nan (DeltaR (Momentum (nan_distance_heap 0%nat))
                        (Momentum (nan_distance_heap 1%nat))) = true
              \/ is_nan (fDeltaRMax (default_config [0%nat] None)) = true)
    by (left; vm_compute; reflexivity).
  split; [exact H|]. split.
  - exact (@nan_distance_never_contributes PtEtaPhi PtEtaPhi_vector
             (default_config [0%nat] None) nan_distance_heap [] [2%nat]
             1%nat 0%nat stale H).
  - vm_compute. reflexivity.
Defined.

(** The candidate of [nan_pt_heap] has nothing in its cone and a NaN
    [Pt()]: with the default configuration and with [UseLooseID] it is added
    to the output; in the absolute mode its sum 0 is not above
    [ptSumMax = 5] and it is added as well. *)
Lemma nan_pt_candidate_witness :
  let st := mkState nan_pt_heap [] stale in
  is_nan (Pt (Momentum (nan_pt_heap 0%nat))) = true
  /\ is_nan
       (ratioDBeta
          (compute (default_config [0%nat] None) nan_pt_heap [1%nat] 0%nat
             stale)) = true
  /\ fOutputArray
       (iteration (fun x => x) (default_config [0%nat] None) [1%nat] st
          0%nat) = [0%nat]
  /\ fOutputArray
       (iteration (fun x => x) (loose_config [0%nat]) [1%nat] st 0%nat)
     = [0%nat]
  /\ fOutputArray
       (iteration (fun x => x) (sum_config [0%nat]) [1%nat] st 0%nat)
     = [0%nat].
Proof.
  cbv zeta. split; [reflexivity|].
  destruct (@nan_pt_candidate PtEtaPhi PtEtaPhi_vector (fun x => x)
              (default_config [0%nat] None) [1%nat]
              (mkState nan_pt_heap [] stale) 0%nat eq_refl)
    as (Hd & _ & _ & Hout).
  destruct (@nan_pt_candidate PtEtaPhi PtEtaPhi_vector (fun x => x)
              (loose_config [0%nat]) [1%nat]
              (mkState nan_pt_heap [] stale) 0%nat eq_refl)
    as (_ & _ & _ & Hloose).
  destruct (@nan_pt_candidate PtEtaPhi PtEtaPhi_vector (fun x => x)
              (sum_config [0%nat]) [1%nat]
              (mkState nan_pt_heap [] stale) 0%nat eq_refl)
    as (_ & _ & _ & Hsum).
  split; [exact Hd|].
  split; [rewrite Hout; vm_compute; reflexivity|].
  split; [rewrite Hloose; vm_compute; reflexivity|].
  rewrite Hsum. vm_compute. reflexivity.
Defined.

(** On [saturated_heap] every [Pt()] is finite; the neutral and the
    pile-up sum both overflow to [+infinity], their difference is NaN, and
    [sumDBeta] is the charged sum 1. *)
Lemma pileup_floor_in_binary64_witness :
  let l' :=
    compute (default_config [0%nat] None) saturated_heap [1; 2; 3; 4; 5]%nat
      0%nat stale in
  sumNeutral l' = infinity
  /\ sumChargedPU l' = infinity
  /\ is_nan (sumNeutral l' - 0.5 * sumChargedPU l')%float = true
  /\ sumDBeta l' = 1%float
  /\ is_nan (ratioDBeta l') = false.
Proof.
  cbv zeta.
  destruct (@pileup_floor_in_binary64 PtEtaPhi PtEtaPhi_vector
              (default_config [0%nat] None) saturated_heap
              [1; 2; 3; 4; 5]%nat 0%nat stale)
    as (_ & _ & _ & _ & _ & _ & _ & _ & Hnan & _).
  split; [vm_compute; reflexivity|]. split; [vm_compute; reflexivity|].
  assert (N : is_nan
                (sumNeutral
                   (compute (default_config [0%nat] None) saturated_heap
                      [1; 2; 3; 4; 5]%nat 0%nat stale)
                 - 0.5
                   * sumChargedPU
                       (compute (default_config [0%nat] None) saturated_heap
                          [1; 2; 3; 4; 5]%nat 0%nat stale))%float = true)
    by (vm_compute; reflexivity).
  split; [exact N|].
  split; [rewrite (Hnan N); vm_compute; reflexivity|].
  vm_compute. reflexivity.
Defined.

(** The bins [0, 1) and [1, 2) of [rho_heap] do not overlap: for
    [|eta| = 0.5] the scan ends with the density 5 in either order. *)
Lemma rho_scan_order_irrelevant_witness :
  let l := set_eta 0.5%float stale in
  Permutation [2; 3]%nat [3; 2]%nat
  /\ fold_left (find_rho_step rho_heap) [2; 3]%nat l
     = fold_left (find_rho_step rho_heap) [3; 2]%nat l
  /\ rho (fold_left (find_rho_step rho_heap) [3; 2]%nat l) = 5%float.
Proof.
  cbv zeta.
  assert (Hp : Permutation [2; 3]%nat [3; 2]%nat) by apply perm_swap.
  split; [exact Hp|]. split; [|vm_compute; reflexivity].
  apply (@rho_scan_order_irrelevant float PtEtaPhi binary64 PtEtaPhi_vector
           rho_heap [2; 3]%nat [3; 2]%nat (set_eta 0.5%float stale));
    [|exact Hp].
  intros o o' [<-|[<-|[]]] [<-|[<-|[]]] Ho Ho'; try reflexivity;
    vm_compute in Ho, Ho'; discriminate.
Defined.

(** A module constructed in [busy_memory] and initialised from a
    configuration that names a rho array: [Init] allocates four objects,
    [Finish] deletes them and leaves the classifier (address 5) and the
    objects that were live before (1 and 3); a second [Finish] fails. *)
Lemma init_finish_balanced_witness :
  let m0 := fst (Lifecycle.Constructor raw_members busy_memory) in
  let mem0 := snd (Lifecycle.Constructor raw_members busy_memory) in
  let r :=
    Lifecycle.Init (@unset float) (@unset bool) rho_named array_named
      array_named literal_binary64 m0 mem0 [] in
  let m1 := fst (fst r) in
  let mem1 := snd (fst r) in
  Lifecycle.well_formed busy_memory
  /\ Lifecycle.live mem1 = [9; 8; 7; 6; 5; 1; 3]%nat
  /\ exists mem2,
       Lifecycle.Finish m1 mem1 = Some mem2
       /\ Lifecycle.live mem2 = [5; 1; 3]%nat.
Proof.
  cbv zeta.
  assert (H : Lifecycle.well_formed busy_memory)
    by (intros a [<-|[<-|[]]]; cbn; lia).
  split; [exact H|]. split; [reflexivity|].
  destruct (@init_finish_balanced float binary64 String.string (@unset float)
              (@unset bool) rho_named array_named array_named
              literal_binary64 raw_members busy_memory [] H)
    as (_ & mem2 & Hfin & _ & Hlive).
  exists mem2. split; [exact Hfin | exact Hlive].
Defined.

Lemma finish_twice_deletes_twice_witness :
  let m0 := fst (Lifecycle.Constructor raw_members busy_memory) in
  let mem0 := snd (Lifecycle.Constructor raw_members busy_memory) in
  let r :=
    Lifecycle.Init (@unset float) (@unset bool) (@unset String.string)
      array_named array_named literal_binary64 m0 mem0 [] in
  let m1 := fst (fst r) in
  let mem1 := snd (fst r) in
  let mem2 := Lifecycle.mkMemory 9 [5; 1; 3]%nat in
  Lifecycle.well_formed busy_memory
  /\ Lifecycle.Finish m1 mem1 = Some mem2
  /\ Lifecycle.Finish m1 mem2 = None.
Proof.
  cbv zeta.
  assert (H : Lifecycle.well_formed busy_memory)
    by (intros a [<-|[<-|[]]]; cbn; lia).
  split; [exact H|]. split; [reflexivity|].
  exact (@finish_twice_deletes_twice float binary64 String.string
           (@unset float) (@unset bool) (@unset String.string) array_named
           array_named literal_binary64 raw_members busy_memory []
           (Lifecycle.mkMemory 9 [5; 1; 3]%nat) H eq_refl).
Defined.

(** The defaults of [Init] as binary64 values, from a configuration source
    without entries. *)
Example init_defaults_binary64 :
  let m0 := fst (Lifecycle.Constructor raw_members busy_memory) in
  let mem0 := snd (Lifecycle.Constructor raw_members busy_memory) in
  let m1 :=
    fst (fst (Lifecycle.Init (@unset float) (@unset bool) (@unset String.string)
                array_named array_named literal_binary64 m0 mem0 [])) in
  Lifecycle.Iso_p0 m1 = 0x1.4cccccccccccdp+1%float
  /\ Lifecycle.Iso_p0_ee m1 = 0x1.2666666666666p+1%float
  /\ Lifecycle.fPTRatioMax m1 = 0x1.999999999999ap-4%float
  /\ Lifecycle.fPTSumMax m1 = 5%float
  /\ Lifecycle.fRhoInputArray m1 = None
  /\ Lifecycle.fItRhoInputArray m1 = None.
Proof. cbv zeta. repeat split; vm_compute; reflexivity. Qed.

(** With [UseRhoCorrection] off, the candidate of [rho_event_heap] is
    rejected with or without the rho array, on [ratioDBeta = 4/16], and
    [IsolationVar] is 0.25 either way; the array shows only in
    [IsolationVarRhoCorr], which is 0 with it ([4 - 8*0.5*0.5*pi] is below
    zero) and 0.25 without. *)
Lemma rho_array_unused_without_rho_correction_witness :
  let self := delta_beta_config [0%nat] None in
  let st :=
    Process (fun x => x) self (Some [1%nat]) stale rho_event_heap [] in
  let st' :=
    Process (fun x => x) (with_rho_array (Some [2%nat]) self) (Some [1%nat])
      stale rho_event_heap [] in
  fUseRhoCorrection self = false
  /\ fOutputArray st' = fOutputArray st
  /\ fOutputArray st = []
  /\ IsolationVar (objects st' 0%nat) = IsolationVar (objects st 0%nat)
  /\ IsolationVar (objects st 0%nat) = 0.25%float
  /\ IsolationVarRhoCorr (objects st' 0%nat) = 0%float
  /\ IsolationVarRhoCorr (objects st 0%nat) = 0.25%float.
Proof.
  cbv zeta. split; [reflexivity|].
  destruct (@rho_array_unused_without_rho_correction float PtEtaPhi
              binary64 PtEtaPhi_vector (fun x => x)
              (delta_beta_config [0%nat] None) (Some [2%nat])
              (Some [1%nat]) stale rho_event_heap [] eq_refl)
    as [Hout Hmem].
  split; [exact Hout|]. split; [vm_compute; reflexivity|].
  split; [exact (proj1 (Hmem 0%nat))|].
  repeat split; vm_compute; reflexivity.
Defined.

(** With [UseRhoCorrection] on, the same rho array decides: the candidate
    of [rho_event_heap] is added to the output with it
    ([ratioRhoCorr = 0]) and rejected without it ([ratioRhoCorr = 0.25]). *)
Example rho_array_decides_with_rho_correction :
  fOutputArray
    (Process (fun x => x) (default_config [0%nat] (Some [2%nat]))
       (Some [1%nat]) stale rho_event_heap [])
  = [0%nat]
  /\ fOutputArray
       (Process (fun x => x) (default_config [0%nat] None) (Some [1%nat])
          stale rho_event_heap [])
     = [].
Proof. split; vm_compute; reflexivity. Qed.
